(** * MENUFY tenant store: [src/contexts/RestaurantContext.tsx]

    A shallow embedding of the React context that holds the menu, the
    categories, the orders, the discount milestones, the settings and the
    activity log of one tenant, and of the operations it exposes.

    Conventions of the model.
    - A JavaScript number is an integer of [Z]: amounts, thresholds and
      timestamps are integral in this application. Doubles represent the
      integers of magnitude at most 2^53 - 1 exactly, and add and subtract
      them exactly as long as the result stays in that range
      ([safe_integer]): there the arithmetic of [Z] is the arithmetic of the
      code. Fractional doubles and their rounding are outside the model; a
      statement that rests on an identity of arithmetic, such as
      [(t + c) - c = t], takes the amounts it computes with to be safe
      integers.
    - A JavaScript string is a [string] whose characters stand for code
      units below 256. Case mapping is modelled for ASCII text ([ascii_only]).
    - [Math.random] and [Date.now] are inputs: every operation that calls them
      receives the values they return in an [Env].
    - [JSON.parse] and [JSON.stringify] belong to the platform. The store is
      written against the interface [JsonCodec]; [JSON.parse] and
      [JSON.stringify] below give a reference implementation of it. *)

From Stdlib Require Import ZArith String Ascii Decimal DecimalString DecimalZ Lia.
From stdpp Require Import base tactics option list sorting strings gmap.

Open Scope Z_scope.

(** ** JSON data *)

(** What [JSON.parse] can return. The members of an object are kept in
    insertion order, as a JavaScript object keeps its string keys. *)
#[local] Unset Elimination Schemes.
Inductive json : Type :=
| JNull
| JBool (b : bool)
| JNum (n : Z)
| JStr (s : string)
| JArr (elements : list json)
| JObj (members : list (string * json)).
#[local] Set Elimination Schemes.

(** JavaScript truthiness of a JSON value: [null], [false], [0] and the empty
    string are falsy, every array and object is truthy. *)
Definition truthy (v : json) : bool :=
  match v with
  | JNull => false
  | JBool b => b
  | JNum n => negb (n =? 0)
  | JStr s => negb (String.eqb s "")
  | JArr _ | JObj _ => true
  end.

(** The value of the first member named [k]. *)
Fixpoint assoc (k : string) (ms : list (string * json)) : option json :=
  match ms with
  | [] => None
  | (k', v) :: rest => if decide (k' = k) then Some v else assoc k rest
  end.

(** [obj[k] = v] on the member list of an object: an existing member keeps its
    place and takes the new value, a new member goes last. *)
Fixpoint obj_set (k : string) (v : json) (ms : list (string * json))
  : list (string * json) :=
  match ms with
  | [] => [(k, v)]
  | (k', v') :: rest =>
      if decide (k' = k) then (k, v) :: rest else (k', v') :: obj_set k v rest
  end.

(** The members of an object literal read left to right: a repeated key
    overwrites. *)
Definition obj_of_members (ms : list (string * json)) : list (string * json) :=
  fold_left (fun acc kv => obj_set kv.1 kv.2 acc) ms [].

(** Every object of the value has pairwise distinct keys, as every
    JavaScript object has. *)
Fixpoint distinct_keys (v : json) : bool :=
  match v with
  | JArr vs => forallb distinct_keys vs
  | JObj ms =>
      bool_decide (NoDup (map fst ms))
      && forallb (fun kv => distinct_keys (snd kv)) ms
  | _ => true
  end.

(** ** Reference implementation of the platform codec *)

Module JSON.

Definition dquote : ascii := ascii_of_nat 34.
Definition backslash : ascii := ascii_of_nat 92.

Definition hex_digit (n : nat) : ascii :=
  ascii_of_nat (if (n <? 10)%nat then 48 + n else 87 + n)%nat.

(** QuoteJSONString on one code unit. *)
Definition escape_char (c : ascii) : string :=
  let n := nat_of_ascii c in
  if (n =? 34)%nat then String backslash (String dquote "")
  else if (n =? 92)%nat then String backslash (String backslash "")
  else if (n =? 8)%nat then String backslash "b"
  else if (n =? 9)%nat then String backslash "t"
  else if (n =? 10)%nat then String backslash "n"
  else if (n =? 12)%nat then String backslash "f"
  else if (n =? 13)%nat then String backslash "r"
  else if (n <? 32)%nat then
    String backslash
      (String "u" (String "0" (String "0"
        (String (hex_digit (n / 16)) (String (hex_digit (n mod 16)) "")))))
  else String c "".

Fixpoint quote_chars (s : string) : string :=
  match s with
  | EmptyString => EmptyString
  | String c r => escape_char c +:+ quote_chars r
  end.

Definition quote (s : string) : string :=
  String dquote (quote_chars s +:+ String dquote "").

Fixpoint join_comma (parts : list string) : string :=
  match parts with
  | [] => ""
  | [p] => p
  | p :: rest => p +:+ "," +:+ join_comma rest
  end.

(** [JSON.stringify(v)] without indentation. *)
Fixpoint stringify (v : json) : string :=
  match v with
  | JNull => "null"
  | JBool true => "true"
  | JBool false => "false"
  | JNum n => NilEmpty.string_of_int (Z.to_int n)
  | JStr s => quote s
  | JArr vs => "[" +:+ join_comma (map stringify vs) +:+ "]"
  | JObj ms =>
      "{" +:+ join_comma (map (fun kv => quote (fst kv) +:+ ":" +:+ stringify (snd kv)) ms)
          +:+ "}"
  end.

Definition is_ws (c : ascii) : bool :=
  let n := nat_of_ascii c in
  (n =? 32)%nat || (n =? 9)%nat || (n =? 10)%nat || (n =? 13)%nat.

Fixpoint skip_ws (s : string) : string :=
  match s with
  | String c r => if is_ws c then skip_ws r else s
  | EmptyString => EmptyString
  end.

Definition digit_of (c : ascii) : option (uint -> uint) :=
  match nat_of_ascii c with
  | 48%nat => Some D0 | 49%nat => Some D1 | 50%nat => Some D2
  | 51%nat => Some D3 | 52%nat => Some D4 | 53%nat => Some D5
  | 54%nat => Some D6 | 55%nat => Some D7 | 56%nat => Some D8
  | 57%nat => Some D9
  | _ => None
  end.

(** The longest prefix of digits, and what follows it. *)
Fixpoint scan_digits (s : string) : uint * string :=
  match s with
  | String c r =>
      match digit_of c with
      | Some mk => let (d, r') := scan_digits r in (mk d, r')
      | None => (Nil, s)
      end
  | EmptyString => (Nil, EmptyString)
  end.

(** An integer literal: an optional minus sign, then [0] or digits that do
    not start with [0]. The numbers of the model are integers: a text with a
    fraction or an exponent after the digits, which the platform reads as
    well, has no value here and [parse] refuses it. *)
Definition parse_number (s : string) : option (Z * string) :=
  let (negative, s1) :=
    match s with
    | String c r => if (nat_of_ascii c =? 45)%nat then (true, r) else (false, s)
    | EmptyString => (false, s)
    end in
  let (d, rest) := scan_digits s1 in
  match d with
  | Nil => None
  | D0 Nil => Some (0, rest)
  | D0 _ => None
  | _ => Some (Z.of_int (if negative : bool then Neg d else Pos d), rest)
  end.

Definition hex_value (c : ascii) : option nat :=
  let n := nat_of_ascii c in
  if (48 <=? n)%nat && (n <=? 57)%nat then Some (n - 48)%nat
  else if (97 <=? n)%nat && (n <=? 102)%nat then Some (n - 87)%nat
  else if (65 <=? n)%nat && (n <=? 70)%nat then Some (n - 55)%nat
  else None.

(** The character a one-letter escape stands for. *)
Definition unescape (c : ascii) : option ascii :=
  match nat_of_ascii c with
  | 34%nat => Some dquote
  | 92%nat => Some backslash
  | 47%nat => Some (ascii_of_nat 47)
  | 98%nat => Some (ascii_of_nat 8)
  | 102%nat => Some (ascii_of_nat 12)
  | 110%nat => Some (ascii_of_nat 10)
  | 114%nat => Some (ascii_of_nat 13)
  | 116%nat => Some (ascii_of_nat 9)
  | _ => None
  end.

Definition cons_char (c : ascii) (r : option (string * string))
  : option (string * string) :=
  match r with
  | Some (s, rest) => Some (String c s, rest)
  | None => None
  end.

(** The characters of a string literal after its opening quote, up to and
    including the closing quote. A [\uXXXX] escape above code unit 255 is
    outside the model and is refused. *)
Fixpoint parse_chars (s : string) : option (string * string) :=
  match s with
  | EmptyString => None
  | String c r =>
      let n := nat_of_ascii c in
      if (n =? 34)%nat then Some (EmptyString, r)
      else if (n =? 92)%nat then
        match r with
        | EmptyString => None
        | String e r1 =>
            match unescape e with
            | Some ch => cons_char ch (parse_chars r1)
            | None =>
                if (nat_of_ascii e =? 117)%nat then
                  match r1 with
                  | String h1 (String h2 (String h3 (String h4 r2))) =>
                      match hex_value h1, hex_value h2, hex_value h3, hex_value h4 with
                      | Some 0%nat, Some 0%nat, Some a, Some b =>
                          cons_char (ascii_of_nat (16 * a + b)) (parse_chars r2)
                      | _, _, _, _ => None
                      end
                  | _ => None
                  end
                else None
            end
        end
      else if (n <? 32)%nat then None
      else cons_char c (parse_chars r)
  end.

(** What follows the prefix [p] of [s], when [s] starts with [p]. *)
Fixpoint starts_with (p s : string) : option string :=
  match p with
  | EmptyString => Some s
  | String a p' =>
      match s with
      | String b s' => if Ascii.eqb a b then starts_with p' s' else None
      | EmptyString => None
      end
  end.

(** Recursive descent over the text; [fuel] bounds the nesting and the
    number of elements, and [parse] supplies more than the text can use. *)
Fixpoint parse_value (fuel : nat) (s : string) : option (json * string) :=
  match fuel with
  | O => None
  | S fuel =>
      match skip_ws s with
      | EmptyString => None
      | String c r =>
          let n := nat_of_ascii c in
          if (n =? 110)%nat then
            match starts_with "ull" r with Some r' => Some (JNull, r') | None => None end
          else if (n =? 116)%nat then
            match starts_with "rue" r with Some r' => Some (JBool true, r') | None => None end
          else if (n =? 102)%nat then
            match starts_with "alse" r with Some r' => Some (JBool false, r') | None => None end
          else if (n =? 34)%nat then
            match parse_chars r with Some (str, r') => Some (JStr str, r') | None => None end
          else if (n =? 91)%nat then
            match skip_ws r with
            | String c' r' =>
                if (nat_of_ascii c' =? 93)%nat then Some (JArr [], r')
                else
                  match parse_elements fuel r with
                  | Some (vs, r'') => Some (JArr vs, r'')
                  | None => None
                  end
            | EmptyString => None
            end
          else if (n =? 123)%nat then
            match skip_ws r with
            | String c' r' =>
                if (nat_of_ascii c' =? 125)%nat then Some (JObj [], r')
                else
                  match parse_members fuel r with
                  | Some (ms, r'') => Some (JObj (obj_of_members ms), r'')
                  | None => None
                  end
            | EmptyString => None
            end
          else
            match parse_number (String c r) with
            | Some (z, r') => Some (JNum z, r')
            | None => None
            end
      end
  end
with parse_elements (fuel : nat) (s : string) : option (list json * string) :=
  match fuel with
  | O => None
  | S fuel =>
      match parse_value fuel s with
      | None => None
      | Some (v, r) =>
          match skip_ws r with
          | String c r' =>
              if (nat_of_ascii c =? 44)%nat then
                match parse_elements fuel r' with
                | Some (vs, r'') => Some (v :: vs, r'')
                | None => None
                end
              else if (nat_of_ascii c =? 93)%nat then Some ([v], r')
              else None
          | EmptyString => None
          end
      end
  end
with parse_members (fuel : nat) (s : string)
  : option (list (string * json) * string) :=
  match fuel with
  | O => None
  | S fuel =>
      match skip_ws s with
      | String q r =>
          if (nat_of_ascii q =? 34)%nat then
            match parse_chars r with
            | None => None
            | Some (k, r1) =>
                match skip_ws r1 with
                | String colon r2 =>
                    if (nat_of_ascii colon =? 58)%nat then
                      match parse_value fuel r2 with
                      | None => None
                      | Some (v, r3) =>
                          match skip_ws r3 with
                          | String c r4 =>
                              if (nat_of_ascii c =? 44)%nat then
                                match parse_members fuel r4 with
                                | Some (ms, r5) => Some ((k, v) :: ms, r5)
                                | None => None
                                end
                              else if (nat_of_ascii c =? 125)%nat then Some ([(k, v)], r4)
                              else None
                          | EmptyString => None
                          end
                      end
                    else None
                | EmptyString => None
                end
            end
          else None
      | EmptyString => None
      end
  end.

(** [JSON.parse(text)]: [None] stands for the SyntaxError it throws. *)
Definition parse (text : string) : option json :=
  match parse_value (S (String.length text)) text with
  | Some (v, rest) =>
      match skip_ws rest with
      | EmptyString => Some v
      | String _ _ => None
      end
  | None => None
  end.

End JSON.

(** ** The platform interface *)

(** [JSON.parse] (with [None] for the SyntaxError it throws) and
    [JSON.stringify], as the store calls them. *)
Class JsonCodec := {
  JSON_parse : string -> option json;
  JSON_stringify : json -> string
}.

#[export] Instance JSON_reference : JsonCodec := {|
  JSON_parse := JSON.parse;
  JSON_stringify := JSON.stringify
|}.

(** What [Math.random().toString(36).substr(2, 9)] and [Date.now()] return
    during one call of an operation. *)
Record Env := mkEnv {
  random_id : string;
  now : Z
}.

(** ** Entities *)

Inductive ActivityType := CREATE | UPDATE | DELETE | SYSTEM.
Inductive ActivityEntity := MENU_ITEM | CATEGORY | PROMOTION | SETTINGS.

Module ActivityEntry.
(** Modelled from the spec: the type ActivityEntry of [../types], with the
    fields [logActivity] writes. *)
Record t := mk {
  id : string;
  type : ActivityType;
  entity : ActivityEntity;
  description : string;
  timestamp : Z
}.
End ActivityEntry.

Module MenuItem.
(** Modelled from the spec: the type MenuItem of [../types]: id, name,
    category (by name), price, and other display attributes. *)
Record t := mk {
  id : string;
  name : string;
  category : string;
  price : Z;
  attributes : list (string * string)
}.
End MenuItem.

Module Order.
(** Modelled from the spec: the type Order of [../types]: id, line items
    (menu item id and quantity), status, creation instant, takeaway flag,
    packing charge and total. The status is one of a set of string literals,
    of which the source shows PENDING. *)
Record t := mk {
  id : string;
  items : list (string * Z);
  status : string;
  timestamp : Z;
  isTakeaway : bool;
  packingCharge : Z;
  total : Z
}.
End Order.

Module DiscountMilestone.
Record t := mk {
  threshold : Z;
  percentage : Z
}.
End DiscountMilestone.

Module RestaurantSettings.
(** Modelled from the spec: the type RestaurantSettings of [../types]: the
    display name, the packing charge, and other branding attributes. *)
Record t := mk {
  name : string;
  packingCharge : Z;
  branding : list (string * string)
}.
End RestaurantSettings.

(** ** The store *)

(** The state cells of [RestaurantProvider] that the operations read and
    write (the tenant id and the initialisation flag, which only the load
    and save effects use, are left out). The types of the four business
    cells are parameters: TypeScript declares them ([TStore]), and
    [importBusinessData] stores whatever [JSON.parse] returned, unchecked
    ([JStore]). *)
Record Store (M C S D : Type) := mkStore {
  menuItems : M;
  categories : C;
  orders : list Order.t;
  lastPlacedOrder : option Order.t;
  settings : S;
  activityLog : list ActivityEntry.t;
  discountMilestones : D;
  isAdmin : bool
}.
Arguments mkStore {M C S D}.
Arguments menuItems {M C S D}.
Arguments categories {M C S D}.
Arguments orders {M C S D}.
Arguments lastPlacedOrder {M C S D}.
Arguments settings {M C S D}.
Arguments activityLog {M C S D}.
Arguments discountMilestones {M C S D}.
Arguments isAdmin {M C S D}.

Abbreviation TStore :=
  (Store (list MenuItem.t) (list string) RestaurantSettings.t (list DiscountMilestone.t)).
Abbreviation JStore := (Store json json json json).

Section Setters.
Context {M C S D : Type}.
Implicit Type s : Store M C S D.

Definition setMenuItems (v : M) s : Store M C S D :=
  mkStore v (categories s) (orders s) (lastPlacedOrder s) (settings s)
    (activityLog s) (discountMilestones s) (isAdmin s).
Definition setCategories (v : C) s : Store M C S D :=
  mkStore (menuItems s) v (orders s) (lastPlacedOrder s) (settings s)
    (activityLog s) (discountMilestones s) (isAdmin s).
Definition setOrders (v : list Order.t) s : Store M C S D :=
  mkStore (menuItems s) (categories s) v (lastPlacedOrder s) (settings s)
    (activityLog s) (discountMilestones s) (isAdmin s).
Definition setLastPlacedOrder (v : option Order.t) s : Store M C S D :=
  mkStore (menuItems s) (categories s) (orders s) v (settings s)
    (activityLog s) (discountMilestones s) (isAdmin s).
Definition setSettings (v : S) s : Store M C S D :=
  mkStore (menuItems s) (categories s) (orders s) (lastPlacedOrder s) v
    (activityLog s) (discountMilestones s) (isAdmin s).
Definition setActivityLog (v : list ActivityEntry.t) s : Store M C S D :=
  mkStore (menuItems s) (categories s) (orders s) (lastPlacedOrder s) (settings s)
    v (discountMilestones s) (isAdmin s).
Definition setDiscountMilestones (v : D) s : Store M C S D :=
  mkStore (menuItems s) (categories s) (orders s) (lastPlacedOrder s) (settings s)
    (activityLog s) v (isAdmin s).
Definition setIsAdmin (v : bool) s : Store M C S D :=
  mkStore (menuItems s) (categories s) (orders s) (lastPlacedOrder s) (settings s)
    (activityLog s) (discountMilestones s) v.

(** [logActivity]: the new entry goes first and the log keeps its first 100
    entries. *)
Definition logActivity (env : Env) (type : ActivityType) (entity : ActivityEntity)
    (description : string) s : Store M C S D :=
  let newEntry :=
    ActivityEntry.mk (random_id env) type entity description (now env) in
  setActivityLog (take 100 (newEntry :: activityLog s)) s.

Definition login (password : string) s : bool * Store M C S D :=
  if decide (password = "admin123") then (true, setIsAdmin true s) else (false, s).

Definition logout s : Store M C S D := setIsAdmin false s.

(** The order data of the argument are spread first, then id, status and
    timestamp are written over them. *)
Definition placeOrder (env : Env) (newOrderData : Order.t) s : Store M C S D :=
  let newOrder :=
    Order.mk (random_id env) (Order.items newOrderData) "PENDING" (now env)
      (Order.isTakeaway newOrderData) (Order.packingCharge newOrderData)
      (Order.total newOrderData) in
  setLastPlacedOrder (Some newOrder) (setOrders (newOrder :: orders s) s).

Definition updateOrderStatus (orderId : string) (status : string) s : Store M C S D :=
  setOrders
    ((fun order =>
        if decide (Order.id order = orderId)
        then Order.mk (Order.id order) (Order.items order) status
               (Order.timestamp order) (Order.isTakeaway order)
               (Order.packingCharge order) (Order.total order)
        else order) <$> orders s) s.

Definition clearHistory (env : Env) s : Store M C S D :=
  logActivity env SYSTEM SETTINGS "Activity history was cleared" (setActivityLog [] s).

End Setters.

(** ** Operations on the typed store *)

(** [String.prototype.trim] on code units below 256: tab, line feed, vertical
    tab, form feed, carriage return, space and no-break space. *)
Definition is_js_space (c : ascii) : bool :=
  let n := nat_of_ascii c in
  ((9 <=? n)%nat && (n <=? 13)%nat) || (n =? 32)%nat || (n =? 160)%nat.

Fixpoint trim_start (s : string) : string :=
  match s with
  | String c r => if is_js_space c then trim_start r else s
  | EmptyString => EmptyString
  end.

Definition trim (s : string) : string :=
  String.rev (trim_start (String.rev (trim_start s))).

Definition addMenuItem (env : Env) (item : MenuItem.t) (s : TStore) : TStore :=
  logActivity env CREATE MENU_ITEM ("Added new dish: " +:+ MenuItem.name item)
    (setMenuItems (menuItems s ++ [item]) s).

Definition updateMenuItem (env : Env) (updatedItem : MenuItem.t) (s : TStore) : TStore :=
  logActivity env UPDATE MENU_ITEM ("Updated dish: " +:+ MenuItem.name updatedItem)
    (setMenuItems
       ((fun item =>
           if decide (MenuItem.id item = MenuItem.id updatedItem)
           then updatedItem else item) <$> menuItems s) s).

Definition deleteMenuItem (env : Env) (id : string) (s : TStore) : TStore :=
  let prev := menuItems s in
  let logged :=
    match List.find (fun i => bool_decide (MenuItem.id i = id)) prev with
    | Some itemToDelete =>
        logActivity env DELETE MENU_ITEM
          ("Deleted dish: " +:+ MenuItem.name itemToDelete) s
    | None => s
    end in
  setMenuItems (filter (fun item => MenuItem.id item <> id) prev) logged.

Definition addCategory (env : Env) (name : string) (s : TStore) : TStore :=
  let trimmed := trim name in
  if decide (trimmed = "") then s
  else
    let prev := categories s in
    if decide (trimmed ∈ prev) then s
    else
      setCategories (prev ++ [trimmed])
        (logActivity env CREATE CATEGORY ("Created category: " +:+ trimmed) s).

Definition renameCategory (env : Env) (oldName newName : string) (s : TStore) : TStore :=
  let trimmedNew := trim newName in
  if decide (trimmedNew = "" \/ trimmedNew = oldName) then s
  else
    logActivity env UPDATE CATEGORY
      ("Renamed category: " +:+ oldName +:+ " to " +:+ trimmedNew)
      (setMenuItems
         ((fun item =>
             if decide (MenuItem.category item = oldName)
             then MenuItem.mk (MenuItem.id item) (MenuItem.name item) trimmedNew
                    (MenuItem.price item) (MenuItem.attributes item)
             else item) <$> menuItems s)
         (setCategories
            ((fun c => if decide (c = oldName) then trimmedNew else c) <$> categories s)
            s)).

Definition removeCategory (env : Env) (name : string) (s : TStore) : TStore :=
  logActivity env DELETE CATEGORY ("Permanently deleted category: " +:+ name)
    (setMenuItems (filter (fun item => MenuItem.category item <> name) (menuItems s))
       (setCategories (filter (fun c => c <> name) (categories s)) s)).

(** [Array.prototype.sort(compareFn)]: the sort is stable, so for a
    consistent comparator its result is the one arrangement that insertion
    from the right computes. *)
Fixpoint sort_insert {A : Type} (compareFn : A -> A -> Z) (x : A) (l : list A) : list A :=
  match l with
  | [] => [x]
  | y :: rest =>
      if compareFn x y <=? 0 then x :: l else y :: sort_insert compareFn x rest
  end.

Definition Array_sort {A : Type} (compareFn : A -> A -> Z) (l : list A) : list A :=
  foldr (sort_insert compareFn) [] l.

Definition updateDiscountMilestones (env : Env) (milestones : list DiscountMilestone.t)
    (s : TStore) : TStore :=
  logActivity env UPDATE PROMOTION "Updated automatic discount milestones"
    (setDiscountMilestones
       (Array_sort
          (fun a b => DiscountMilestone.threshold a - DiscountMilestone.threshold b)
          milestones) s).

Definition updateSettings (env : Env) (newSettings : RestaurantSettings.t) (s : TStore)
  : TStore :=
  logActivity env UPDATE SETTINGS "Updated restaurant branding & settings"
    (setSettings newSettings s).

(** [toggleOrderTakeaway]: the order with the given id gets the opposite flag,
    the packing charge of the current settings or 0, and its total plus or
    minus the packing charge of the current settings. The charge is assigned,
    the total is computed: [+] is the addition of doubles on safe integers. *)
Definition toggleOrderTakeaway (orderId : string) (s : TStore) : TStore :=
  setOrders
    ((fun order =>
        if decide (Order.id order = orderId) then
          let nextTakeaway := negb (Order.isTakeaway order) in
          let packingDiff :=
            if nextTakeaway then RestaurantSettings.packingCharge (settings s)
            else - RestaurantSettings.packingCharge (settings s) in
          Order.mk (Order.id order) (Order.items order) (Order.status order)
            (Order.timestamp order) nextTakeaway
            (if nextTakeaway then RestaurantSettings.packingCharge (settings s) else 0)
            (Order.total order + packingDiff)
        else order) <$> orders s) s.

(** The discount schedule the provider starts with. *)
Definition defaultDiscountMilestones : list DiscountMilestone.t :=
  [DiscountMilestone.mk 1000 10; DiscountMilestone.mk 1500 15; DiscountMilestone.mk 2000 20].

(** The cells as [useState] initialises them, before the load effect. *)
Definition initialStore (INITIAL_SETTINGS : RestaurantSettings.t) : TStore :=
  mkStore [] [] [] None INITIAL_SETTINGS [] defaultDiscountMilestones false.

(** The mutating operations of the typed store, and a run of them. *)
Inductive Op :=
| AddMenuItem (item : MenuItem.t)
| UpdateMenuItem (item : MenuItem.t)
| DeleteMenuItem (id : string)
| AddCategory (name : string)
| RemoveCategory (name : string)
| RenameCategory (oldName newName : string)
| UpdateDiscountMilestones (milestones : list DiscountMilestone.t)
| UpdateSettings (newSettings : RestaurantSettings.t)
| PlaceOrder (newOrderData : Order.t)
| UpdateOrderStatus (orderId : string) (status : string)
| ToggleOrderTakeaway (orderId : string)
| ClearHistory
| Login (password : string)
| Logout.

Definition step (env : Env) (op : Op) (s : TStore) : TStore :=
  match op with
  | AddMenuItem item => addMenuItem env item s
  | UpdateMenuItem item => updateMenuItem env item s
  | DeleteMenuItem id => deleteMenuItem env id s
  | AddCategory name => addCategory env name s
  | RemoveCategory name => removeCategory env name s
  | RenameCategory oldName newName => renameCategory env oldName newName s
  | UpdateDiscountMilestones milestones => updateDiscountMilestones env milestones s
  | UpdateSettings newSettings => updateSettings env newSettings s
  | PlaceOrder newOrderData => placeOrder env newOrderData s
  | UpdateOrderStatus orderId status => updateOrderStatus orderId status s
  | ToggleOrderTakeaway orderId => toggleOrderTakeaway orderId s
  | ClearHistory => clearHistory env s
  | Login password => (login password s).2
  | Logout => logout s
  end.

(** ** Computations that may throw *)

(** A computation over a state [St] either returns a value or throws; what it
    did to the state before throwing stays done, as calls of React setters
    do. *)
Inductive outcome (A : Type) :=
| Returned (a : A)
| Thrown.
Arguments Returned {A}.
Arguments Thrown {A}.

Definition Comp (St A : Type) : Type := St -> St * outcome A.

#[export] Instance Comp_ret {St} : MRet (Comp St) :=
  fun A (a : A) st => (st, Returned a).

#[export] Instance Comp_bind {St} : MBind (Comp St) :=
  fun A B (k : A -> Comp St B) (m : Comp St A) st =>
    match m st with
    | (st', Returned a) => k a st'
    | (st', Thrown) => (st', Thrown)
    end.

Definition throw {St A} : Comp St A := fun st => (st, Thrown).

(** [try { body } catch (e) { handler }] *)
Definition try_catch {St A} (body handler : Comp St A) : Comp St A :=
  fun st =>
    match body st with
    | (st', Returned a) => (st', Returned a)
    | (st', Thrown) => handler st'
    end.

(** A call of a state setter. *)
Definition modify {St} (f : St -> St) : Comp St () := fun st => (f st, Returned ()).

(** [JSON.parse(text)], which throws a SyntaxError on text that is no JSON. *)
Definition parse_json `{JsonCodec} {St} (text : string) : Comp St json :=
  match JSON_parse text with
  | Some v => mret v
  | None => throw
  end.

(** [data.key] for a parsed value [data] and a key that is no built-in
    property: reading a property of [null] throws a TypeError, an object
    yields its member or [undefined] ([None]), any other value yields
    [undefined]. *)
Definition get_prop {St} (data : json) (key : string) : Comp St (option json) :=
  match data with
  | JNull => throw
  | JObj ms => mret (assoc key ms)
  | _ => mret None
  end.

(** [if (field) action(field)] *)
Definition if_truthy {St} (field : option json) (action : json -> Comp St ())
  : Comp St () :=
  match field with
  | Some v => if truthy v then action v else mret ()
  | None => mret ()
  end.

(** ** Export and import of the business data *)

Section Transfer.
Context `{JsonCodec}.

(** The object [exportBusinessData] serialises. *)
Definition exported_data (s : JStore) : json :=
  JObj [("menuItems", menuItems s);
        ("categories", categories s);
        ("settings", settings s);
        ("discountMilestones", discountMilestones s)].

Definition exportBusinessData (s : JStore) : string :=
  JSON_stringify (exported_data s).

Definition importBusinessData (env : Env) (jsonStr : string) : Comp JStore bool :=
  try_catch
    (data ← parse_json jsonStr;
     m ← get_prop data "menuItems";
     if_truthy m (fun v => modify (setMenuItems v));;
     c ← get_prop data "categories";
     if_truthy c (fun v => modify (setCategories v));;
     st ← get_prop data "settings";
     if_truthy st (fun v => modify (setSettings v));;
     d ← get_prop data "discountMilestones";
     if_truthy d (fun v => modify (setDiscountMilestones v));;
     modify (logActivity env SYSTEM SETTINGS "Imported external business configuration");;
     mret true)
    (* console.error("Import failed:", e) *)
    (mret false).

End Transfer.

(** ** The load effect *)

Module Keys.
Record t := mk {
  menu : string;
  orders : string;
  cats : string;
  discounts : string;
  settings : string;
  log : string
}.
End Keys.

Definition getKeys (id : string) : Keys.t :=
  Keys.mk ("menu_db_" +:+ id) ("orders_db_" +:+ id) ("categories_db_" +:+ id)
    ("discounts_db_" +:+ id) ("settings_db_" +:+ id) ("activity_log_" +:+ id).

(** [params.get('id') || 'default-cafe'] *)
Definition resolveTenantId (param : option string) : string :=
  match param with
  | Some id => if decide (id = "") then "default-cafe" else id
  | None => "default-cafe"
  end.

(** [s.replace(/-/g, ' ')] *)
Fixpoint replace_hyphens (s : string) : string :=
  match s with
  | String c r =>
      String (if (nat_of_ascii c =? 45)%nat then ascii_of_nat 32 else c) (replace_hyphens r)
  | EmptyString => EmptyString
  end.

(** [s.toUpperCase()] on ASCII text (code units below 128), where the letters
    a to z are the only code units it changes. Above 127 the platform also
    maps letters such as e acute (233 to 201), which this function leaves as
    they are: what is stated of its result is stated for ASCII text. *)
Fixpoint toUpperCase (s : string) : string :=
  match s with
  | String c r =>
      let n := nat_of_ascii c in
      String (if (97 <=? n)%nat && (n <=? 122)%nat then ascii_of_nat (n - 32) else c)
        (toUpperCase r)
  | EmptyString => EmptyString
  end.

(** What the load effect does to the outside: the calls of the state setters,
    in order, and the report of a failure on the console. *)
Inductive Call :=
| SetMenuItems (v : json)
| SetCategories (v : json)
| SetOrders (v : json)
| SetDiscountMilestones (v : json)
| SetSettings (v : json)
| SetActivityLog (v : json)
| SetIsInitialized (b : bool)
| ConsoleError (message : string).

Definition call (c : Call) : Comp (list Call) () :=
  fun calls => (calls ++ [c], Returned ()).

(** [if (saved) ...] on what [localStorage.getItem] returned: [null] and
    the empty string are falsy. *)
Definition saved_truthy (saved : option string) : option string :=
  match saved with
  | Some text => if decide (text = "") then None else Some text
  | None => None
  end.

Section Load.
Context `{JsonCodec}.
(** [MENU_ITEMS] and [INITIAL_SETTINGS] of [../constants], and the values of
    the enumeration [Category] of [../types]. *)
Variable MENU_ITEMS : list json.
Variable Category_values : list json.
Variable INITIAL_SETTINGS : list (string * json).

Definition loadTenantData (localStorage : gmap string string) (tenantId : string)
  : Comp (list Call) () :=
  let keys := getKeys tenantId in
  try_catch
    (let savedMenu := localStorage !! Keys.menu keys in
     let savedOrders := localStorage !! Keys.orders keys in
     let savedCats := localStorage !! Keys.cats keys in
     let savedDiscounts := localStorage !! Keys.discounts keys in
     let savedSettings := localStorage !! Keys.settings keys in
     let savedLog := localStorage !! Keys.log keys in
     match savedMenu with
     | Some text =>
         if decide (text <> "undefined")
         then v ← parse_json text; call (SetMenuItems v)
         else call (SetMenuItems (JArr MENU_ITEMS))
     | None => call (SetMenuItems (JArr MENU_ITEMS))
     end;;
     match savedCats with
     | Some text =>
         if decide (text <> "undefined")
         then v ← parse_json text; call (SetCategories v)
         else call (SetCategories (JArr Category_values))
     | None => call (SetCategories (JArr Category_values))
     end;;
     match saved_truthy savedOrders with
     | Some text => v ← parse_json text; call (SetOrders v)
     | None => mret ()
     end;;
     match saved_truthy savedDiscounts with
     | Some text => v ← parse_json text; call (SetDiscountMilestones v)
     | None => mret ()
     end;;
     match saved_truthy savedSettings with
     | Some text => v ← parse_json text; call (SetSettings v)
     | None =>
         call (SetSettings
                 (JObj (obj_set "name" (JStr (toUpperCase (replace_hyphens tenantId)))
                          INITIAL_SETTINGS)))
     end;;
     match saved_truthy savedLog with
     | Some text => v ← parse_json text; call (SetActivityLog v)
     | None => mret ()
     end;;
     call (SetIsInitialized true))
    (call (ConsoleError "Failed to load tenant data:");;
     call (SetMenuItems (JArr MENU_ITEMS));;
     call (SetCategories (JArr Category_values));;
     call (SetIsInitialized true)).

(** The seeding of a tenant with nothing saved: the default menu and
    categories, the settings named after the tenant, and nothing else. *)
Definition seeded (tenantId : string) : list Call :=
  [SetMenuItems (JArr MENU_ITEMS);
   SetCategories (JArr Category_values);
   SetSettings
     (JObj (obj_set "name" (JStr (toUpperCase (replace_hyphens tenantId))) INITIAL_SETTINGS));
   SetIsInitialized true].

End Load.

(** ** Vocabulary of the statements *)

(** A run of operations of the typed store, each with the values the
    platform hands it. *)
Definition run (ops : list (Env * Op)) (s : TStore) : TStore :=
  foldl (fun st eo => step eo.1 eo.2 st) s ops.

(** The packing charge an order carries agrees with its takeaway flag under
    the given settings. *)
Definition charge_agrees (st : RestaurantSettings.t) (o : Order.t) : Prop :=
  Order.packingCharge o =
    if Order.isTakeaway o then RestaurantSettings.packingCharge st else 0.

(** The integers a double holds exactly, [Number.isSafeInteger]: sums and
    differences of doubles are exact as long as the operands and the result
    are such integers. *)
Definition safe_integer (z : Z) : Prop := Z.abs z <= 2 ^ 53 - 1.

(** The entry [logActivity] builds. *)
Definition entry_of (env : Env) (type : ActivityType) (entity : ActivityEntity)
    (description : string) : ActivityEntry.t :=
  ActivityEntry.mk (random_id env) type entity description (now env).

(** The activity logs the store can hold: a log of at most 100 entries to
    start from (the empty log of a fresh provider, or a saved one), and what
    an operation of the typed store or an import makes of a log. *)
Inductive log_reachable : list ActivityEntry.t -> Prop :=
| reach_start (log : list ActivityEntry.t) :
    (length log <= 100)%nat -> log_reachable log
| reach_step (env : Env) (op : Op) (s : TStore) :
    log_reachable (activityLog s) -> log_reachable (activityLog (step env op s))
| reach_import (codec : JsonCodec) (env : Env) (jsonStr : string) (s : JStore) :
    log_reachable (activityLog s) ->
    log_reachable (activityLog (importBusinessData env jsonStr s).1).

(** What a cell holds after [if (field) setCell(field)]. *)
Definition replaced_by (field : option json) (old : json) : json :=
  match field with
  | Some v => if truthy v then v else old
  | None => old
  end.

(** The member [key] of a parsed value that is not [null]. *)
Definition member (data : json) (key : string) : option json :=
  match data with
  | JObj ms => assoc key ms
  | _ => None
  end.

(** The store after the four conditional replacements of
    [importBusinessData], before the activity entry is logged. *)
Definition with_imported (data : json) (s : JStore) : JStore :=
  mkStore
    (replaced_by (member data "menuItems") (menuItems s))
    (replaced_by (member data "categories") (categories s))
    (orders s) (lastPlacedOrder s)
    (replaced_by (member data "settings") (settings s))
    (activityLog s)
    (replaced_by (member data "discountMilestones") (discountMilestones s))
    (isAdmin s).

(** A store as an import or the load effect leaves it, for the examples. *)
Definition sample_store : JStore :=
  mkStore
    (JArr [JObj [("id", JStr "m1"); ("name", JStr "Masala Tea");
                 ("category", JStr "Drinks"); ("price", JNum 20)];
           JObj [("id", JStr "m2"); ("name", JStr "Veg Thali");
                 ("category", JStr "Food"); ("price", JNum 180)]])
    (JArr [JStr "Drinks"; JStr "Food"])
    [Order.mk "k3j9x0q1z" [("m1", 2)] "PENDING" 1700000000000 false 0 40]
    None
    (JObj [("name", JStr "MY CAFE"); ("packingCharge", JNum 10)])
    []
    (JArr [JObj [("threshold", JNum 1000); ("percentage", JNum 10)];
           JObj [("threshold", JNum 1500); ("percentage", JNum 15)]])
    false.

(** A text after which a number literal ends: it does not go on with a
    digit. *)
Definition ends_number (rest : string) : Prop :=
  match rest with
  | String c _ => JSON.digit_of c = None
  | EmptyString => True
  end.

(** The fuel that parsing the text of a value takes. *)
Fixpoint size (v : json) : nat :=
  match v with
  | JArr vs => S (list_sum (map (fun v => S (size v)) vs))
  | JObj ms => S (list_sum (map (fun kv => S (size (snd kv))) ms))
  | _ => 1
  end.

(** The reference parser reads the text of [v] back, whatever follows it. *)
Definition reads_back (v : json) : Prop :=
  distinct_keys v = true ->
  forall fuel rest,
    (size v <= fuel)%nat -> ends_number rest ->
    JSON.parse_value fuel (JSON.stringify v +:+ rest) = Some (v, rest).

(** ** The save effect *)

Section Save.
Context `{JsonCodec}.

(** The effect that mirrors the six cells to [localStorage] whenever one of
    them changes: it does nothing before the load effect has completed, and
    then writes all six keys, each with the serialised value its cell holds.
    The cells are given as the run-time values they hold. *)
Definition saveTenantData (isInitialized : bool) (tenantId : string)
    (menuItems categories orders discountMilestones settings activityLog : json)
    (localStorage : gmap string string) : gmap string string :=
  if isInitialized then
    let keys := getKeys tenantId in
    <[Keys.log keys := JSON_stringify activityLog]>
      (<[Keys.settings keys := JSON_stringify settings]>
         (<[Keys.discounts keys := JSON_stringify discountMilestones]>
            (<[Keys.orders keys := JSON_stringify orders]>
               (<[Keys.cats keys := JSON_stringify categories]>
                  (<[Keys.menu keys := JSON_stringify menuItems]> localStorage)))))
  else localStorage.

End Save.

(** ** Vocabulary of the further properties *)

(** Every menu item names a listed category. *)
Definition menu_refs_ok (s : TStore) : Prop :=
  forall item, item ∈ menuItems s -> MenuItem.category item ∈ categories s.

(** ASCII text: every code unit is below 128. *)
Definition ascii_only (s : string) : Prop :=
  Forall (fun c => (nat_of_ascii c < 128)%nat) (list_ascii_of_string s).

(** What an order is created with and keeps: its id, its line items and its
    creation instant. *)
Definition order_origin (o : Order.t) : string * list (string * Z) * Z :=
  (Order.id o, Order.items o, Order.timestamp o).

(** The operations that write menu items without looking at the category
    list name a listed category. *)
Definition names_listed_category (op : Op) (s : TStore) : Prop :=
  match op with
  | AddMenuItem item | UpdateMenuItem item => MenuItem.category item ∈ categories s
  | _ => True
  end.

(** The six keys of a tenant, as a list. *)
Definition all_keys (keys : Keys.t) : list string :=
  [Keys.menu keys; Keys.orders keys; Keys.cats keys;
   Keys.discounts keys; Keys.settings keys; Keys.log keys].

(** The calls with which the load effect recovers from a failure. *)
Definition recovery (MENU_ITEMS Category_values : list json) : list Call :=
  [ConsoleError "Failed to load tenant data:";
   SetMenuItems (JArr MENU_ITEMS);
   SetCategories (JArr Category_values);
   SetIsInitialized true].

(** * Properties *)

(** ** The activity log *)

Section LogFacts.
Context {M C S D : Type}.
Implicit Type s : Store M C S D.

Lemma logActivity_activityLog env ty en d s :
  activityLog (logActivity env ty en d s) = entry_of env ty en d :: take 99 (activityLog s).
Proof. reflexivity. Qed.

Lemma logActivity_length env ty en d s :
  (length (activityLog (logActivity env ty en d s)) <= 100)%nat.
Proof.
  rewrite logActivity_activityLog. cbn [length]. rewrite length_take. lia.
Qed.

Lemma logActivity_cells env ty en d s :
  menuItems (logActivity env ty en d s) = menuItems s
  /\ categories (logActivity env ty en d s) = categories s
  /\ orders (logActivity env ty en d s) = orders s
  /\ settings (logActivity env ty en d s) = settings s
  /\ discountMilestones (logActivity env ty en d s) = discountMilestones s.
Proof. repeat split. Qed.

End LogFacts.

(** Every operation of the typed store leaves the log as it is or passes it
    (or, for [clearHistory], the empty log) through [logActivity]. *)
Lemma step_activityLog env op (s : TStore) :
  activityLog (step env op s) = activityLog s
  \/ exists ty en d log0,
       (log0 = activityLog s \/ log0 = [])
       /\ activityLog (step env op s) = entry_of env ty en d :: take 99 log0.
Proof.
  destruct op; cbn [step];
    try (left; reflexivity);
    try (right; do 4 eexists; split; [left; reflexivity | reflexivity]).
  - unfold deleteMenuItem.
    destruct (List.find _ _);
      [right; do 4 eexists; split; [left; reflexivity | reflexivity] | left; reflexivity].
  - unfold addCategory. repeat case_decide; try (left; reflexivity).
    right; do 4 eexists; split; [left; reflexivity | reflexivity].
  - unfold renameCategory. case_decide; [left; reflexivity|].
    right; do 4 eexists; split; [left; reflexivity | reflexivity].
  - right; do 4 eexists; split; [right; reflexivity | reflexivity].
  - unfold login. case_decide; left; reflexivity.
Qed.

Lemma step_log_bound env op (s : TStore) :
  (length (activityLog s) <= 100)%nat ->
  (length (activityLog (step env op s)) <= 100)%nat.
Proof.
  intros Hle.
  destruct (step_activityLog env op s) as [->|(ty & en & d & log0 & _ & ->)]; [done|].
  cbn [length]. rewrite length_take. lia.
Qed.

Lemma run_log_bound ops (s : TStore) :
  (length (activityLog s) <= 100)%nat ->
  (length (activityLog (run ops s)) <= 100)%nat.
Proof.
  revert s. induction ops as [|[env op] ops IH]; intros s Hle; [done|].
  apply IH, step_log_bound, Hle.
Qed.

(** ** Import: what the computation amounts to *)

Section ImportFacts.
Context `{JsonCodec}.

Lemma importBusinessData_run env jsonStr (s : JStore) :
  importBusinessData env jsonStr s =
    match JSON_parse jsonStr with
    | None => (s, Returned false)
    | Some JNull => (s, Returned false)
    | Some data =>
        (logActivity env SYSTEM SETTINGS "Imported external business configuration"
           (with_imported data s),
         Returned true)
    end.
Proof.
  unfold importBusinessData, try_catch, parse_json.
  destruct (JSON_parse jsonStr) as [data|]; [|reflexivity].
  destruct s as [m c o l st a d ad].
  destruct data as [|b|n|str|vs|ms]; try reflexivity.
  unfold with_imported, member, mbind, Comp_bind, get_prop, mret, Comp_ret,
    if_truthy, replaced_by, modify; cbn.
  destruct (assoc "menuItems" ms) as [v1|]; [destruct (truthy v1)|];
    destruct (assoc "categories" ms) as [v2|]; try destruct (truthy v2);
    destruct (assoc "settings" ms) as [v3|]; try destruct (truthy v3);
    destruct (assoc "discountMilestones" ms) as [v4|]; try destruct (truthy v4);
    reflexivity.
Qed.

Lemma importBusinessData_log_bound env jsonStr (s : JStore) :
  (length (activityLog s) <= 100)%nat ->
  (length (activityLog (importBusinessData env jsonStr s).1) <= 100)%nat.
Proof.
  intros Hle. rewrite importBusinessData_run.
  destruct (JSON_parse jsonStr) as [[]|]; cbn [fst]; try done;
    apply logActivity_length.
Qed.

End ImportFacts.

Lemma run_reachable ops (s : TStore) :
  log_reachable (activityLog s) -> log_reachable (activityLog (run ops s)).
Proof.
  revert s. induction ops as [|[env op] ops IH]; intros s Hs; [exact Hs|].
  apply IH. by apply reach_step.
Qed.

(** C7. The activity log never exceeds 100 entries: every log the store can
    reach, from a log of at most 100 entries and through any sequence of
    operations and imports, has at most 100 entries; and on such a log a
    logged mutation puts the new entry first, followed by the first 99 of the
    entries there were, so that a full log loses its last, oldest entry. *)
Theorem activityLog_never_exceeds_100 (log : list ActivityEntry.t) :
  log_reachable log ->
  (length log <= 100)%nat
  /\ (forall (s : TStore) env ty en d,
        activityLog s = log ->
        activityLog (logActivity env ty en d s) = entry_of env ty en d :: take 99 log
        /\ (length log = 100%nat ->
            activityLog (logActivity env ty en d s)
              = entry_of env ty en d :: removelast log)).
Proof.
  intros Hreach. split.
  - induction Hreach as [log Hle|env op s _ IH|codec env jsonStr s _ IH].
    + exact Hle.
    + by apply step_log_bound.
    + by apply importBusinessData_log_bound.
  - intros s env ty en d <-. split; [reflexivity|].
    intros Hfull. rewrite logActivity_activityLog. f_equal.
    destruct (activityLog s) as [|e l] using rev_ind; [done|].
    rewrite removelast_last. rewrite length_app in Hfull. cbn in Hfull.
    rewrite take_app_le by lia. apply take_ge. lia.
Qed.

(** A run that fills the log: 101 dishes are added to a fresh store. *)
Lemma activityLog_never_exceeds_100_witness :
  (length (activityLog
     (run (replicate 101 (mkEnv "k3j9x0q1z" 1700000000000,
                          AddMenuItem (MenuItem.mk "m1" "Tea" "Drinks" 20 [])))
        (initialStore (RestaurantSettings.mk "CAFE" 10 [])))) <= 100)%nat.
Proof.
  refine (proj1 (activityLog_never_exceeds_100 _
                   (run_reachable _ (initialStore _) (reach_start [] _)))).
  cbn. lia.
Defined.

(** ** Takeaway toggling *)

Lemma toggleOrderTakeaway_lookup orderId (s : TStore) i :
  orders (toggleOrderTakeaway orderId s) !! i =
    (fun order =>
       if decide (Order.id order = orderId) then
         let nextTakeaway := negb (Order.isTakeaway order) in
         Order.mk (Order.id order) (Order.items order) (Order.status order)
           (Order.timestamp order) nextTakeaway
           (if nextTakeaway then RestaurantSettings.packingCharge (settings s) else 0)
           (Order.total order
            + (if nextTakeaway then RestaurantSettings.packingCharge (settings s)
               else - RestaurantSettings.packingCharge (settings s)))
       else order) <$> orders s !! i.
Proof. unfold toggleOrderTakeaway. cbn [orders setOrders]. by rewrite list_lookup_fmap. Qed.

(** What one call does to a matching order, to the other orders and to the
    other cells. *)
Lemma toggleOrderTakeaway_spec orderId (s : TStore) i o :
  orders s !! i = Some o ->
  let charge := RestaurantSettings.packingCharge (settings s) in
  exists o',
    orders (toggleOrderTakeaway orderId s) !! i = Some o'
    /\ (Order.id o <> orderId -> o' = o)
    /\ (Order.id o = orderId ->
        Order.isTakeaway o' = negb (Order.isTakeaway o)
        /\ Order.packingCharge o' = (if Order.isTakeaway o' then charge else 0)
        /\ Order.total o' = Order.total o + (if Order.isTakeaway o' then charge else - charge)
        /\ Order.id o' = Order.id o /\ Order.items o' = Order.items o
        /\ Order.status o' = Order.status o /\ Order.timestamp o' = Order.timestamp o)
    /\ activityLog (toggleOrderTakeaway orderId s) = activityLog s
    /\ settings (toggleOrderTakeaway orderId s) = settings s.
Proof.
  intros Ho charge. rewrite toggleOrderTakeaway_lookup, Ho. cbn [fmap option_fmap option_map].
  eexists. split; [reflexivity|]. case_decide as Hid.
  - split; [done|]. split; [|done]. intros _. cbn. done.
  - split; [done|]. split; [done|]. done.
Qed.

(** C1, as amended. Toggling the takeaway flag of an order twice restores its
    isTakeaway flag for any initial values. When the packing charge the order
    carries agrees with its flag under the current settings (the settings'
    charge for a takeaway order, 0 otherwise), the two calls restore its
    packingCharge, which is assigned and not computed. When, moreover, the
    total, the settings' packing charge and the total in between are safe
    integers, so that the two additions are exact, they restore the total and
    with it the whole order. *)
Theorem toggleOrderTakeaway_twice (s : TStore) (i : nat) (o : Order.t) :
  orders s !! i = Some o ->
  let charge := RestaurantSettings.packingCharge (settings s) in
  exists o',
    orders (toggleOrderTakeaway (Order.id o) (toggleOrderTakeaway (Order.id o) s)) !! i
      = Some o'
    /\ Order.isTakeaway o' = Order.isTakeaway o
    /\ (charge_agrees (settings s) o -> Order.packingCharge o' = Order.packingCharge o)
    /\ (charge_agrees (settings s) o ->
        safe_integer (Order.total o) ->
        safe_integer charge ->
        safe_integer (Order.total o + (if Order.isTakeaway o then - charge else charge)) ->
        Order.total o' = Order.total o /\ o' = o).
Proof.
  intros Ho charge. subst charge.
  rewrite toggleOrderTakeaway_lookup, toggleOrderTakeaway_lookup, Ho.
  cbn [fmap option_fmap option_map settings toggleOrderTakeaway setOrders].
  destruct o as [id items status ts tk pc total]. cbn [Order.id].
  rewrite (decide_True (P := id = id)) by done. cbn [Order.id].
  rewrite (decide_True (P := id = id)) by done.
  eexists. split; [reflexivity|]. cbn.
  split; [by rewrite negb_involutive|].
  unfold charge_agrees. cbn. split.
  - intros ->. by destruct tk.
  - intros -> _ _ _. destruct tk; cbn; split; try lia; f_equal; lia.
Qed.

Lemma toggleOrderTakeaway_twice_witness :
  exists o',
    orders (toggleOrderTakeaway "k3j9x0q1z" (toggleOrderTakeaway "k3j9x0q1z"
      (mkStore [] [] [Order.mk "k3j9x0q1z" [("m1", 2)] "PENDING" 1700000000000 true 10 110]
         None (RestaurantSettings.mk "CAFE" 10 []) [] defaultDiscountMilestones false)))
      !! 0%nat = Some o'
    /\ Order.isTakeaway o' = true
    /\ Order.packingCharge o' = 10
    /\ Order.total o' = 110.
Proof.
  destruct (toggleOrderTakeaway_twice
    (mkStore [] [] [Order.mk "k3j9x0q1z" [("m1", 2)] "PENDING" 1700000000000 true 10 110]
       None (RestaurantSettings.mk "CAFE" 10 []) [] defaultDiscountMilestones false)
    0%nat _ eq_refl) as (o' & Hlook & Hflag & Hcharge & Hrest).
  exists o'. split; [exact Hlook|]. split; [exact Hflag|].
  split; [exact (Hcharge eq_refl)|].
  refine (proj1 (Hrest eq_refl _ _ _)); unfold safe_integer; cbn; lia.
Defined.

(** C1, as stated, fails. An order of total 100 is placed and made takeaway
    under a packing charge of 10, and the settings' charge is then changed to
    25: the order carries a packingCharge of 10, and two more toggles bring
    it back with a packingCharge of 25. *)
Lemma toggleOrderTakeaway_twice_counterexample :
  let env := mkEnv "k3j9x0q1z" 1700000000000 in
  let s :=
    run [(env, PlaceOrder (Order.mk "" [("m1", 2)] "" 0 false 0 100));
         (env, ToggleOrderTakeaway "k3j9x0q1z");
         (env, UpdateSettings (RestaurantSettings.mk "CAFE" 25 []))]
      (initialStore (RestaurantSettings.mk "CAFE" 10 [])) in
  orders s !! 0%nat
    = Some (Order.mk "k3j9x0q1z" [("m1", 2)] "PENDING" 1700000000000 true 10 110)
  /\ orders (toggleOrderTakeaway "k3j9x0q1z" (toggleOrderTakeaway "k3j9x0q1z" s)) !! 0%nat
     = Some (Order.mk "k3j9x0q1z" [("m1", 2)] "PENDING" 1700000000000 true 25 110)
  /\ 25 <> 10.
Proof. cbv zeta. split; [reflexivity|]. split; [reflexivity|]. lia. Qed.

(** C2, evaluated where it fails. An order of total 100 is placed, made
    takeaway under a packing charge of 10 (total 110, charge 10 on the
    order), the settings' charge is changed to 25, and takeaway is turned off:
    the total drops by 25, the charge of the current settings, to 85, and not
    by the 10 that were on the order. *)
Theorem toggleOrderTakeaway_off_uses_settings_charge :
  let env := mkEnv "k3j9x0q1z" 1700000000000 in
  let placed :=
    [(env, PlaceOrder (Order.mk "" [("m1", 2)] "" 0 false 0 100));
     (env, ToggleOrderTakeaway "k3j9x0q1z")] in
  let s0 := initialStore (RestaurantSettings.mk "CAFE" 10 []) in
  orders (run placed s0)
    = [Order.mk "k3j9x0q1z" [("m1", 2)] "PENDING" 1700000000000 true 10 110]
  /\ orders (run (placed ++ [(env, UpdateSettings (RestaurantSettings.mk "CAFE" 25 []));
                            (env, ToggleOrderTakeaway "k3j9x0q1z")]) s0)
     = [Order.mk "k3j9x0q1z" [("m1", 2)] "PENDING" 1700000000000 false 0 85]
  /\ 85 <> 110 - 10.
Proof. cbv zeta. split; [reflexivity|]. split; [reflexivity|]. lia. Qed.

(** ** Sorting the discount milestones *)

Section SortFacts.
Context {A : Type} (key : A -> Z).

Lemma sort_insert_perm x (l : list A) :
  sort_insert (fun a b => key a - key b) x l ≡ₚ x :: l.
Proof.
  induction l as [|y l IH]; cbn; [done|].
  destruct (key x - key y <=? 0); [done|].
  rewrite IH. apply Permutation_swap.
Qed.

Lemma Array_sort_perm (l : list A) :
  Array_sort (fun a b => key a - key b) l ≡ₚ l.
Proof.
  induction l as [|x l IH]; cbn; [done|].
  unfold Array_sort in IH. by rewrite sort_insert_perm, IH.
Qed.

Lemma sort_insert_sorted x (l : list A) :
  Sorted (fun a b => key a <= key b) l ->
  Sorted (fun a b => key a <= key b) (sort_insert (fun a b => key a - key b) x l).
Proof.
  induction 1 as [|y l Hsorted IH Hhd]; cbn.
  - repeat constructor.
  - destruct (Z.leb_spec (key x - key y) 0) as [Hle|Hgt].
    + constructor; [by constructor|]. constructor. lia.
    + constructor; [exact IH|].
      destruct Hhd as [|z l' Hyz]; cbn.
      * constructor. lia.
      * destruct (key x - key z <=? 0); constructor; [lia|done].
Qed.

Lemma Array_sort_sorted (l : list A) :
  Sorted (fun a b => key a <= key b) (Array_sort (fun a b => key a - key b) l).
Proof.
  induction l as [|x l IH]; cbn; [constructor|].
  by apply sort_insert_sorted.
Qed.

End SortFacts.

(** C6. After [updateDiscountMilestones] the stored list is a permutation of
    the input and is sorted ascending by threshold, whatever the order of the
    input. *)
Theorem updateDiscountMilestones_sorted env (milestones : list DiscountMilestone.t)
    (s : TStore) :
  discountMilestones (updateDiscountMilestones env milestones s) ≡ₚ milestones
  /\ Sorted (fun a b => DiscountMilestone.threshold a <= DiscountMilestone.threshold b)
       (discountMilestones (updateDiscountMilestones env milestones s)).
Proof.
  split.
  - apply (Array_sort_perm DiscountMilestone.threshold).
  - apply (Array_sort_sorted DiscountMilestone.threshold).
Qed.

Example updateDiscountMilestones_example env (s : TStore) :
  discountMilestones
    (updateDiscountMilestones env
       [DiscountMilestone.mk 2000 20; DiscountMilestone.mk 1000 10;
        DiscountMilestone.mk 1500 15] s)
  = defaultDiscountMilestones.
Proof. reflexivity. Qed.

(** ** Categories *)

(** C8. [removeCategory name] keeps exactly the categories other than [name]
    and exactly the menu items of another category, each as it was, and logs
    one DELETE/CATEGORY entry whatever the lists held; with the categories
    Drinks and Food and the items A (Drinks) and B (Food), removing Drinks
    leaves the category Food and the item B. *)
Theorem removeCategory_cascade env (name : string) (s : TStore) :
  categories (removeCategory env name s) = filter (fun c => c <> name) (categories s)
  /\ ~ (name ∈ categories (removeCategory env name s))
  /\ (forall c, c ∈ categories (removeCategory env name s) <-> c ∈ categories s /\ c <> name)
  /\ menuItems (removeCategory env name s)
     = filter (fun item => MenuItem.category item <> name) (menuItems s)
  /\ (forall item,
        item ∈ menuItems (removeCategory env name s)
        <-> item ∈ menuItems s /\ MenuItem.category item <> name)
  /\ activityLog (removeCategory env name s)
     = entry_of env DELETE CATEGORY ("Permanently deleted category: " +:+ name)
         :: take 99 (activityLog s)
  /\ (let A := MenuItem.mk "a" "A" "Drinks" 40 [] in
      let B := MenuItem.mk "b" "B" "Food" 90 [] in
      let s0 := setMenuItems [A; B] (setCategories ["Drinks"; "Food"] s) in
      categories (removeCategory env "Drinks" s0) = ["Food"]
      /\ menuItems (removeCategory env "Drinks" s0) = [B]).
Proof.
  split; [reflexivity|].
  split. { cbn. rewrite list_elem_of_filter. tauto. }
  split. { intros c. cbn. rewrite list_elem_of_filter. tauto. }
  split; [reflexivity|].
  split. { intros item. cbn. rewrite list_elem_of_filter. tauto. }
  split; [reflexivity|].
  split; reflexivity.
Qed.

Lemma addCategory_NoDup env name (s : TStore) :
  NoDup (categories s) -> NoDup (categories (addCategory env name s)).
Proof.
  intros Hnd. unfold addCategory. repeat case_decide; try done.
  cbn. apply NoDup_app. split; [done|]. split; [|apply NoDup_singleton].
  intros x Hx ->%list_elem_of_singleton. done.
Qed.

(** C9. [renameCategory] does not keep category names unique: renaming a
    listed category A to the name of another listed category B leaves B at
    two places of the list, so the list has a duplicate; [addCategory], which
    checks the list first, keeps a duplicate-free list duplicate-free. *)
Theorem renameCategory_duplicates env (s : TStore) (A B : string) :
  A <> B -> B <> "" -> trim B = B ->
  A ∈ categories s -> B ∈ categories s ->
  (exists i j, i <> j
     /\ categories (renameCategory env A B s) !! i = Some B
     /\ categories (renameCategory env A B s) !! j = Some B)
  /\ ~ NoDup (categories (renameCategory env A B s))
  /\ (NoDup (categories s) -> forall name, NoDup (categories (addCategory env name s))).
Proof.
  intros Hne Hnonempty Htrim [i Hi]%list_elem_of_lookup_1 [j Hj]%list_elem_of_lookup_1.
  assert (Hij : i <> j) by (intros ->; congruence).
  assert (Hcats : categories (renameCategory env A B s)
                  = (fun c => if decide (c = A) then B else c) <$> categories s).
  { unfold renameCategory. rewrite Htrim.
    destruct (decide (B = "" \/ B = A)) as [[?|?]|_]; [congruence..|done]. }
  assert (Hi' : categories (renameCategory env A B s) !! i = Some B).
  { rewrite Hcats, list_lookup_fmap, Hi. cbn. by rewrite decide_True. }
  assert (Hj' : categories (renameCategory env A B s) !! j = Some B).
  { rewrite Hcats, list_lookup_fmap, Hj. cbn. by rewrite decide_False. }
  split; [by exists i, j|].
  split.
  - intros Hnd. apply Hij. by eapply NoDup_lookup.
  - intros Hnd name. by apply addCategory_NoDup.
Qed.

Lemma renameCategory_duplicates_witness :
  categories
    (renameCategory (mkEnv "k3j9x0q1z" 1700000000000) "Drinks" "Food"
       (setCategories ["Drinks"; "Food"] (initialStore (RestaurantSettings.mk "CAFE" 10 []))))
  = ["Food"; "Food"]
  /\ ~ NoDup (categories
       (renameCategory (mkEnv "k3j9x0q1z" 1700000000000) "Drinks" "Food"
          (setCategories ["Drinks"; "Food"]
             (initialStore (RestaurantSettings.mk "CAFE" 10 []))))).
Proof.
  split; [reflexivity|].
  refine (proj1 (proj2 (renameCategory_duplicates (mkEnv "k3j9x0q1z" 1700000000000)
    (setCategories ["Drinks"; "Food"] (initialStore (RestaurantSettings.mk "CAFE" 10 [])))
    "Drinks" "Food" _ _ _ _ _))).
  - discriminate.
  - discriminate.
  - reflexivity.
  - cbn. apply list_elem_of_here.
  - cbn. apply list_elem_of_further, list_elem_of_here.
Defined.

(** ** The reference codec reads back what it writes *)

Lemma append_cons (x : ascii) (a b : string) : String x a +:+ b = String x (a +:+ b).
Proof. reflexivity. Qed.

Lemma append_assoc (a b c : string) : (a +:+ b) +:+ c = a +:+ (b +:+ c).
Proof. induction a as [|x a IH]; [done|]. by rewrite !append_cons, IH. Qed.

Lemma append_nil_r (a : string) : a +:+ "" = a.
Proof. induction a as [|x a IH]; [done|]. by rewrite append_cons, IH. Qed.

Lemma length_append (a b : string) :
  String.length (a +:+ b) = (String.length a + String.length b)%nat.
Proof. induction a as [|x a IH]; [done|]. rewrite append_cons. cbn. by rewrite IH. Qed.

Lemma parse_chars_escape (c : ascii) (rest : string) :
  JSON.parse_chars (JSON.escape_char c +:+ rest) = JSON.cons_char c (JSON.parse_chars rest).
Proof. destruct c as [[] [] [] [] [] [] [] []]; reflexivity. Qed.

Lemma parse_chars_quote_chars (s rest : string) :
  JSON.parse_chars (JSON.quote_chars s +:+ String JSON.dquote rest) = Some (s, rest).
Proof.
  induction s as [|c s IH]; [reflexivity|].
  cbn [JSON.quote_chars]. rewrite append_assoc, parse_chars_escape, IH. reflexivity.
Qed.

Lemma quote_append (s rest : string) :
  JSON.quote s +:+ rest = String JSON.dquote (JSON.quote_chars s +:+ String JSON.dquote rest).
Proof. unfold JSON.quote. by rewrite append_cons, append_assoc. Qed.



Lemma json_ind (P : json -> Prop) :
  P JNull ->
  (forall b, P (JBool b)) ->
  (forall n, P (JNum n)) ->
  (forall s, P (JStr s)) ->
  (forall vs, Forall P vs -> P (JArr vs)) ->
  (forall ms, Forall (fun kv => P (snd kv)) ms -> P (JObj ms)) ->
  forall v, P v.
Proof.
  intros Hnull Hbool Hnum Hstr Harr Hobj. fix IH 1.
  intros [|b|n|s|vs|ms]; [done..| |].
  - apply Harr. induction vs as [|v vs IHvs]; constructor; [apply IH | exact IHvs].
  - apply Hobj. induction ms as [|[k v] ms IHms]; constructor; [apply IH | exact IHms].
Qed.

Lemma scan_digits_uint (d : uint) (rest : string) :
  ends_number rest ->
  JSON.scan_digits (NilEmpty.string_of_uint d +:+ rest) = (d, rest).
Proof.
  intros Hrest.
  induction d as [|d IH|d IH|d IH|d IH|d IH|d IH|d IH|d IH|d IH|d IH];
    cbn [NilEmpty.string_of_uint]; rewrite ?append_cons.
  1: { change ("" +:+ rest) with rest. destruct rest as [|c r]; [done|].
       cbn [JSON.scan_digits]. unfold ends_number in Hrest. by rewrite Hrest. }
  all: cbn [JSON.scan_digits]; rewrite IH; reflexivity.
Qed.

Lemma nzhead_not_D0 (d d' : uint) : nzhead d <> D0 d'.
Proof. induction d; cbn; done. Qed.

Lemma to_uint_not_D0 (p : positive) (d' : uint) : Pos.to_uint p <> D0 d'.
Proof.
  intros Heq.
  pose proof (DecimalPos.Unsigned.to_of (Pos.to_uint p)) as Hnorm.
  rewrite DecimalPos.Unsigned.of_to in Hnorm. cbn [N.to_uint] in Hnorm.
  rewrite Heq in Hnorm. unfold unorm in Hnorm.
  destruct (nzhead (D0 d')) as [|x|x|x|x|x|x|x|x|x|x] eqn:Hnz; try discriminate Hnorm.
  - apply (DecimalPos.Unsigned.to_uint_nonzero p). by rewrite Heq, Hnorm.
  - by apply nzhead_not_D0 in Hnz.
Qed.

Lemma parse_number_uint (negative : bool) (p : positive) (rest : string) :
  ends_number rest ->
  (let (d, rest') := JSON.scan_digits (NilEmpty.string_of_uint (Pos.to_uint p) +:+ rest) in
   match d with
   | Nil => None
   | D0 Nil => Some (0, rest')
   | D0 _ => None
   | _ => Some (Z.of_int (if negative then Neg d else Pos d), rest')
   end) = Some (if negative then Z.neg p else Z.pos p, rest).
Proof.
  intros Hrest. rewrite scan_digits_uint by done.
  pose proof (DecimalPos.Unsigned.to_uint_nonnil p) as Hnil.
  pose proof (to_uint_not_D0 p) as Hd0.
  assert (Hval : Z.of_int (if negative then Neg (Pos.to_uint p) else Pos (Pos.to_uint p))
                 = if negative then Z.neg p else Z.pos p).
  { destruct negative.
    - apply (DecimalZ.of_to (Z.neg p)).
    - apply (DecimalZ.of_to (Z.pos p)). }
  destruct (Pos.to_uint p) as [|d|d|d|d|d|d|d|d|d|d]; try done;
    try (by rewrite Hval).
  by destruct (Hd0 d).
Qed.

Lemma string_of_uint_digit (p : positive) :
  exists c r, NilEmpty.string_of_uint (Pos.to_uint p) = String c r
              /\ JSON.digit_of c <> None.
Proof.
  pose proof (DecimalPos.Unsigned.to_uint_nonnil p) as Hnil.
  destruct (Pos.to_uint p); [done|..]; cbn; eexists _, _; (split; [reflexivity|done]).
Qed.

Lemma parse_number_stringify (n : Z) (rest : string) :
  ends_number rest ->
  JSON.parse_number (NilEmpty.string_of_int (Z.to_int n) +:+ rest) = Some (n, rest).
Proof.
  intros Hrest. destruct n as [|p|p].
  - cbn [Z.to_int NilEmpty.string_of_int NilEmpty.string_of_uint]. rewrite append_cons.
    change ("" +:+ rest) with rest. unfold JSON.parse_number.
    change (Nat.eqb (nat_of_ascii "0") 45) with false. cbn iota.
    change (String "0" rest) with (NilEmpty.string_of_uint (D0 Nil) +:+ rest).
    by rewrite scan_digits_uint.
  - cbn [Z.to_int NilEmpty.string_of_int].
    destruct (string_of_uint_digit p) as (c & r & Hs & Hc).
    unfold JSON.parse_number. rewrite Hs, append_cons.
    assert (Nat.eqb (nat_of_ascii c) 45 = false) as ->.
    { destruct c as [[] [] [] [] [] [] [] []]; try done; by destruct Hc. }
    rewrite <- append_cons, <- Hs. apply (parse_number_uint false p rest Hrest).
  - cbn [Z.to_int NilEmpty.string_of_int]. rewrite append_cons.
    unfold JSON.parse_number. change (Nat.eqb (nat_of_ascii "-") 45) with true. cbn iota.
    apply (parse_number_uint true p rest Hrest).
Qed.

Lemma skip_ws_cons (c : ascii) (r : string) :
  JSON.is_ws c = false -> JSON.skip_ws (String c r) = String c r.
Proof. intros Hc. cbn [JSON.skip_ws]. by rewrite Hc. Qed.

Lemma obj_set_fresh (k : string) (v : json) (ms : list (string * json)) :
  k ∉ map fst ms -> obj_set k v ms = ms ++ [(k, v)].
Proof.
  induction ms as [|[k' v'] ms IH]; cbn; [done|].
  intros Hnotin. apply not_elem_of_cons in Hnotin as [Hne Hnotin].
  rewrite decide_False by done. by rewrite IH.
Qed.

Lemma obj_of_members_distinct (ms : list (string * json)) :
  NoDup (map fst ms) -> obj_of_members ms = ms.
Proof.
  unfold obj_of_members.
  assert (Hgen : forall acc, NoDup (map fst (acc ++ ms)) ->
            fold_left (fun acc kv => obj_set kv.1 kv.2 acc) ms acc = acc ++ ms).
  { induction ms as [|[k v] ms IH]; intros acc Hnd; cbn.
    - by rewrite app_nil_r.
    - rewrite obj_set_fresh.
      + rewrite IH; rewrite <- app_assoc; [done|exact Hnd].
      + rewrite map_app in Hnd. apply NoDup_app in Hnd as (_ & Hdisj & _).
        intros Hin. apply (Hdisj k Hin). cbn. apply list_elem_of_here. }
  intros Hnd. exact (Hgen [] Hnd).
Qed.

Lemma digit_not_special (c : ascii) :
  JSON.digit_of c <> None \/ nat_of_ascii c = 45%nat ->
  JSON.is_ws c = false /\ nat_of_ascii c <> 93%nat /\ nat_of_ascii c <> 125%nat
  /\ Nat.eqb (nat_of_ascii c) 110 = false /\ Nat.eqb (nat_of_ascii c) 116 = false
  /\ Nat.eqb (nat_of_ascii c) 102 = false /\ Nat.eqb (nat_of_ascii c) 34 = false
  /\ Nat.eqb (nat_of_ascii c) 91 = false /\ Nat.eqb (nat_of_ascii c) 123 = false.
Proof.
  destruct c as [[] [] [] [] [] [] [] []]; intros [Hd|Hm];
    try (exfalso; apply Hd; reflexivity); try discriminate Hm;
    repeat split; discriminate.
Qed.

(** The text of a number starts with a digit or a minus sign. *)
Lemma string_of_int_head (n : Z) :
  exists c r, NilEmpty.string_of_int (Z.to_int n) = String c r
              /\ (JSON.digit_of c <> None \/ nat_of_ascii c = 45%nat).
Proof.
  destruct n as [|p|p].
  - eexists _, _. split; [reflexivity|]. by left.
  - destruct (string_of_uint_digit p) as (c & r & Hs & Hc).
    exists c, r. split; [exact Hs | by left].
  - eexists _, _. split; [reflexivity|]. by right.
Qed.

(** The text of a value starts with a character that is no white space and
    closes no array. *)
Lemma stringify_head (v : json) :
  exists c r, JSON.stringify v = String c r
              /\ JSON.is_ws c = false /\ nat_of_ascii c <> 93%nat.
Proof.
  destruct v as [|[]|n|s|vs|ms]; try (eexists _, _; split; [reflexivity|split; done]).
  destruct (string_of_int_head n) as (c & r & Hs & Hc).
  exists c, r. split; [exact Hs|].
  destruct (digit_not_special c Hc) as (? & ? & _). done.
Qed.

Lemma parse_value_S (fuel : nat) (c : ascii) (r : string) :
  JSON.is_ws c = false ->
  JSON.parse_value (S fuel) (String c r) =
    let n := nat_of_ascii c in
    if (n =? 110)%nat then
      match JSON.starts_with "ull" r with Some r' => Some (JNull, r') | None => None end
    else if (n =? 116)%nat then
      match JSON.starts_with "rue" r with Some r' => Some (JBool true, r') | None => None end
    else if (n =? 102)%nat then
      match JSON.starts_with "alse" r with Some r' => Some (JBool false, r') | None => None end
    else if (n =? 34)%nat then
      match JSON.parse_chars r with Some (str, r') => Some (JStr str, r') | None => None end
    else if (n =? 91)%nat then
      match JSON.skip_ws r with
      | String c' r' =>
          if (nat_of_ascii c' =? 93)%nat then Some (JArr [], r')
          else
            match JSON.parse_elements fuel r with
            | Some (vs, r'') => Some (JArr vs, r'')
            | None => None
            end
      | EmptyString => None
      end
    else if (n =? 123)%nat then
      match JSON.skip_ws r with
      | String c' r' =>
          if (nat_of_ascii c' =? 125)%nat then Some (JObj [], r')
          else
            match JSON.parse_members fuel r with
            | Some (ms, r'') => Some (JObj (obj_of_members ms), r'')
            | None => None
            end
      | EmptyString => None
      end
    else
      match JSON.parse_number (String c r) with
      | Some (z, r') => Some (JNum z, r')
      | None => None
      end.
Proof.
  intros Hc. cbn [JSON.parse_value]. rewrite skip_ws_cons by done. reflexivity.
Qed.

Lemma parse_elements_S (fuel : nat) (s : string) :
  JSON.parse_elements (S fuel) s =
    match JSON.parse_value fuel s with
    | None => None
    | Some (v, r) =>
        match JSON.skip_ws r with
        | String c r' =>
            if (nat_of_ascii c =? 44)%nat then
              match JSON.parse_elements fuel r' with
              | Some (vs, r'') => Some (v :: vs, r'')
              | None => None
              end
            else if (nat_of_ascii c =? 93)%nat then Some ([v], r')
            else None
        | EmptyString => None
        end
    end.
Proof. reflexivity. Qed.

Lemma parse_members_S (fuel : nat) (r : string) :
  JSON.parse_members (S fuel) (String JSON.dquote r) =
    match JSON.parse_chars r with
    | None => None
    | Some (k, r1) =>
        match JSON.skip_ws r1 with
        | String colon r2 =>
            if (nat_of_ascii colon =? 58)%nat then
              match JSON.parse_value fuel r2 with
              | None => None
              | Some (v, r3) =>
                  match JSON.skip_ws r3 with
                  | String c r4 =>
                      if (nat_of_ascii c =? 44)%nat then
                        match JSON.parse_members fuel r4 with
                        | Some (ms, r5) => Some ((k, v) :: ms, r5)
                        | None => None
                        end
                      else if (nat_of_ascii c =? 125)%nat then Some ([(k, v)], r4)
                      else None
                  | EmptyString => None
                  end
              end
            else None
        | EmptyString => None
        end
    end.
Proof. reflexivity. Qed.


Lemma append_char (c : ascii) (x : string) : String c "" +:+ x = String c x.
Proof. reflexivity. Qed.

Lemma join_comma_cons (p q : string) (l : list string) :
  JSON.join_comma (p :: q :: l) = p +:+ "," +:+ JSON.join_comma (q :: l).
Proof. reflexivity. Qed.

Lemma parse_elements_stringify (vs : list json) :
  forall v fuel rest,
    Forall reads_back (v :: vs) ->
    forallb distinct_keys (v :: vs) = true ->
    (list_sum (map (fun v => S (size v)) (v :: vs)) <= fuel)%nat ->
    JSON.parse_elements fuel
      (JSON.join_comma (map JSON.stringify (v :: vs)) +:+ String "]" rest)
    = Some (v :: vs, rest).
Proof.
  induction vs as [|v2 vs IH]; intros v fuel rest Hall Hdk Hfuel;
    apply Forall_cons in Hall as [Hv Hall];
    cbn [forallb] in Hdk; apply andb_prop in Hdk as [Hdv Hdk];
    cbn [map list_sum foldr fold_right] in Hfuel;
    (destruct fuel as [|fuel]; [lia|]); rewrite parse_elements_S.
  - cbn [map JSON.join_comma].
    rewrite (Hv Hdv fuel (String "]" rest)) by (cbn in *; first [lia | done]).
    reflexivity.
  - change (map JSON.stringify (v :: v2 :: vs))
      with (JSON.stringify v :: JSON.stringify v2 :: map JSON.stringify vs).
    rewrite join_comma_cons, !append_assoc, append_char.
    rewrite (Hv Hdv fuel) by (cbn in *; first [lia | done]).
    rewrite skip_ws_cons by done.
    change (Nat.eqb (nat_of_ascii ",") 44) with true. cbn iota.
    change (JSON.stringify v2 :: map JSON.stringify vs)
      with (map JSON.stringify (v2 :: vs)).
    rewrite IH; [done|done|done|].
    cbn [map list_sum foldr fold_right]. lia.
Qed.

Lemma parse_members_stringify (ms : list (string * json)) :
  forall k v fuel rest,
    Forall (fun kv => reads_back (snd kv)) ((k, v) :: ms) ->
    forallb (fun kv => distinct_keys (snd kv)) ((k, v) :: ms) = true ->
    (list_sum (map (fun kv => S (size (snd kv))) ((k, v) :: ms)) <= fuel)%nat ->
    JSON.parse_members fuel
      (JSON.join_comma
         (map (fun kv => JSON.quote (fst kv) +:+ ":" +:+ JSON.stringify (snd kv))
              ((k, v) :: ms))
       +:+ String "}" rest)
    = Some ((k, v) :: ms, rest).
Proof.
  induction ms as [|[k2 v2] ms IH]; intros k v fuel rest Hall Hdk Hfuel;
    apply Forall_cons in Hall as [Hv Hall]; cbn [snd] in Hv;
    cbn [forallb snd] in Hdk; apply andb_prop in Hdk as [Hdv Hdk];
    cbn [map list_sum foldr fold_right snd] in Hfuel;
    (destruct fuel as [|fuel]; [lia|]).
  - cbn [map JSON.join_comma fst snd].
    rewrite !append_assoc, quote_append, parse_members_S, parse_chars_quote_chars.
    rewrite append_char, skip_ws_cons by done.
    change (Nat.eqb (nat_of_ascii ":") 58) with true. cbn iota.
    rewrite (Hv Hdv fuel (String "}" rest)) by (cbn in *; first [lia | done]).
    reflexivity.
  - change (map ?f ((k, v) :: (k2, v2) :: ms))
      with (f (k, v) :: f (k2, v2) :: map f ms).
    rewrite join_comma_cons. cbn [fst snd].
    rewrite !append_assoc, quote_append, parse_members_S, parse_chars_quote_chars.
    rewrite !append_char, skip_ws_cons by done.
    change (Nat.eqb (nat_of_ascii ":") 58) with true. cbn iota.
    rewrite (Hv Hdv fuel) by (cbn in *; first [lia | done]).
    rewrite skip_ws_cons by done.
    change (Nat.eqb (nat_of_ascii ",") 44) with true. cbn iota.
    change (JSON.parse_members fuel _)
      with (JSON.parse_members fuel
              (JSON.join_comma
                 (map (fun kv => JSON.quote (fst kv) +:+ ":" +:+ JSON.stringify (snd kv))
                      ((k2, v2) :: ms))
               +:+ String "}" rest)).
    rewrite IH; [done|done|done|].
    cbn [map list_sum foldr fold_right snd]. lia.
Qed.

Lemma parse_value_stringify (v : json) : reads_back v.
Proof.
  induction v as [|b|n|s|vs IHvs|ms IHms] using json_ind;
    intros Hdk fuel rest Hfuel Hrest;
    (destruct fuel as [|fuel]; [cbn in Hfuel; lia|]).
  - reflexivity.
  - destruct b; reflexivity.
  - cbn [JSON.stringify].
    destruct (string_of_int_head n) as (c & r & Hs & Hc).
    pose proof (parse_number_stringify n rest Hrest) as Hnum.
    rewrite Hs, append_cons in *.
    destruct (digit_not_special c Hc) as (Hws & _ & _ & H1 & H2 & H3 & H4 & H5 & H6).
    rewrite parse_value_S by done. cbv zeta.
    rewrite H1, H2, H3, H4, H5, H6, Hnum. reflexivity.
  - cbn [JSON.stringify]. rewrite quote_append, parse_value_S by done.
    cbv zeta. change (Nat.eqb (nat_of_ascii JSON.dquote) 110) with false.
    change (Nat.eqb (nat_of_ascii JSON.dquote) 116) with false.
    change (Nat.eqb (nat_of_ascii JSON.dquote) 102) with false.
    change (Nat.eqb (nat_of_ascii JSON.dquote) 34) with true. cbn iota.
    by rewrite parse_chars_quote_chars.
  - cbn [JSON.stringify]. rewrite !append_assoc, append_char, parse_value_S by done.
    cbv zeta. change (Nat.eqb (nat_of_ascii "[") 110) with false.
    change (Nat.eqb (nat_of_ascii "[") 116) with false.
    change (Nat.eqb (nat_of_ascii "[") 102) with false.
    change (Nat.eqb (nat_of_ascii "[") 34) with false.
    change (Nat.eqb (nat_of_ascii "[") 91) with true. cbn iota.
    rewrite append_char.
    destruct vs as [|v vs]; [reflexivity|].
    cbn [distinct_keys] in Hdk. cbn [size] in Hfuel.
    rewrite parse_elements_stringify; [|done|done|lia].
    destruct (stringify_head v) as (c & r & Hs & Hws & Hc).
    assert (exists r', JSON.join_comma (map JSON.stringify (v :: vs))
                               +:+ String "]" rest = String c r') as [r' ->].
    { cbn [map JSON.join_comma]. destruct (map JSON.stringify vs);
        rewrite Hs, ?append_cons; eauto. }
    rewrite skip_ws_cons by done.
    apply Nat.eqb_neq in Hc. rewrite Hc. reflexivity.
  - cbn [JSON.stringify]. rewrite !append_assoc, append_char, parse_value_S by done.
    cbv zeta. change (Nat.eqb (nat_of_ascii "{") 110) with false.
    change (Nat.eqb (nat_of_ascii "{") 116) with false.
    change (Nat.eqb (nat_of_ascii "{") 102) with false.
    change (Nat.eqb (nat_of_ascii "{") 34) with false.
    change (Nat.eqb (nat_of_ascii "{") 91) with false.
    change (Nat.eqb (nat_of_ascii "{") 123) with true. cbn iota.
    rewrite append_char.
    destruct ms as [|[k v] ms]; [reflexivity|].
    cbn [distinct_keys] in Hdk. apply andb_prop in Hdk as [Hnd Hdk].
    apply bool_decide_eq_true in Hnd. cbn [size] in Hfuel.
    rewrite parse_members_stringify; [|done|done|lia].
    rewrite obj_of_members_distinct by done.
    assert (exists r',
               JSON.join_comma
                 (map (fun kv => JSON.quote (fst kv) +:+ ":" +:+ JSON.stringify (snd kv))
                      ((k, v) :: ms))
               +:+ String "}" rest = String JSON.dquote r') as [r' ->].
    { cbn [map JSON.join_comma fst].
      destruct (map _ ms); unfold JSON.quote; rewrite ?append_cons; eauto. }
    reflexivity.
Qed.

Lemma length_join_comma (parts : list string) (sizes : list nat) :
  Forall2 (fun n p => (n <= String.length p)%nat) sizes parts ->
  (list_sum (map S sizes) <= S (String.length (JSON.join_comma parts)))%nat.
Proof.
  induction 1 as [|n p sizes parts Hnp Hrest IH]; [cbn; lia|].
  destruct Hrest as [|n2 p2 sizes parts Hnp2 Hrest].
  - cbn. lia.
  - rewrite join_comma_cons, !length_append.
    cbn [map list_sum foldr fold_right] in *. cbn [String.length]. lia.
Qed.

Lemma size_le_length (v : json) : (size v <= String.length (JSON.stringify v))%nat.
Proof.
  induction v as [|b|n|s|vs IHvs|ms IHms] using json_ind.
  - cbn. lia.
  - destruct b; cbn; lia.
  - destruct (string_of_int_head n) as (c & r & Hs & _).
    cbn [JSON.stringify size]. rewrite Hs. cbn. lia.
  - cbn. lia.
  - cbn [JSON.stringify size]. rewrite !length_append. cbn [String.length].
    pose proof (length_join_comma (map JSON.stringify vs) (map size vs)) as Hlen.
    rewrite map_map in Hlen.
    assert (Forall2 (fun n p => (n <= String.length p)%nat)
              (map size vs) (map JSON.stringify vs)) as Hall.
    { clear Hlen. induction IHvs; cbn [map]; constructor; done. }
    specialize (Hlen Hall). lia.
  - cbn [JSON.stringify size]. rewrite !length_append. cbn [String.length].
    pose proof (length_join_comma
                  (map (fun kv => JSON.quote (fst kv) +:+ ":" +:+ JSON.stringify (snd kv)) ms)
                  (map (fun kv => size (snd kv)) ms)) as Hlen.
    rewrite map_map in Hlen.
    assert (Forall2 (fun n p => (n <= String.length p)%nat)
              (map (fun kv => size (snd kv)) ms)
              (map (fun kv => JSON.quote (fst kv) +:+ ":" +:+ JSON.stringify (snd kv)) ms))
      as Hall.
    { clear Hlen. induction IHms as [|[k v] ms Hv _ IH]; cbn [map]; constructor; [|done].
      cbn [fst snd] in *. rewrite !length_append. lia. }
    specialize (Hlen Hall). lia.
Qed.

(** The reference codec satisfies the law of the platform codec: it parses
    what it printed, for every value whose objects have distinct keys. *)
Lemma JSON_parse_stringify (v : json) :
  distinct_keys v = true -> JSON.parse (JSON.stringify v) = Some v.
Proof.
  intros Hdk. unfold JSON.parse.
  rewrite <- (append_nil_r (JSON.stringify v)) at 2.
  rewrite (parse_value_stringify v Hdk); [reflexivity| |done].
  pose proof (size_le_length v). lia.
Qed.

(** ** Import and export *)

Section TransferFacts.
Context `{JsonCodec}.

Lemma member_exported_data (s : JStore) :
  member (exported_data s) "menuItems" = Some (menuItems s)
  /\ member (exported_data s) "categories" = Some (categories s)
  /\ member (exported_data s) "settings" = Some (settings s)
  /\ member (exported_data s) "discountMilestones" = Some (discountMilestones s).
Proof. repeat split. Qed.

Lemma replaced_by_same (v : json) : replaced_by (Some v) v = v.
Proof. unfold replaced_by. by destruct (truthy v). Qed.

(** Import after export, for one store: it is enough that the codec reads
    back the object this store exports. *)
Lemma import_after_export env (s : JStore) :
  JSON_parse (JSON_stringify (exported_data s)) = Some (exported_data s) ->
  (importBusinessData env (exportBusinessData s) s).2 = Returned true
  /\ menuItems (importBusinessData env (exportBusinessData s) s).1 = menuItems s
  /\ categories (importBusinessData env (exportBusinessData s) s).1 = categories s
  /\ settings (importBusinessData env (exportBusinessData s) s).1 = settings s
  /\ discountMilestones (importBusinessData env (exportBusinessData s) s).1
     = discountMilestones s.
Proof.
  intros Hcodec. rewrite importBusinessData_run. unfold exportBusinessData.
  rewrite Hcodec. unfold exported_data at 1. cbn [fst snd].
  destruct (member_exported_data s) as (Hm & Hc & Hs & Hd).
  unfold with_imported. rewrite Hm, Hc, Hs, Hd, !replaced_by_same.
  repeat split.
Qed.

(** C3. On a platform whose [JSON.parse] reads back what its
    [JSON.stringify] wrote, importing the string that [exportBusinessData]
    produced returns true and leaves menuItems, categories, settings and
    discountMilestones as they were, for every store (the objects in its
    cells having distinct keys, as JavaScript objects do). *)
Theorem import_export_roundtrip env (s : JStore) :
  (forall v, distinct_keys v = true -> JSON_parse (JSON_stringify v) = Some v) ->
  distinct_keys (menuItems s) = true ->
  distinct_keys (categories s) = true ->
  distinct_keys (settings s) = true ->
  distinct_keys (discountMilestones s) = true ->
  (importBusinessData env (exportBusinessData s) s).2 = Returned true
  /\ menuItems (importBusinessData env (exportBusinessData s) s).1 = menuItems s
  /\ categories (importBusinessData env (exportBusinessData s) s).1 = categories s
  /\ settings (importBusinessData env (exportBusinessData s) s).1 = settings s
  /\ discountMilestones (importBusinessData env (exportBusinessData s) s).1
     = discountMilestones s.
Proof.
  intros Hlaw Hm Hc Hs Hd. apply import_after_export, Hlaw.
  cbn [distinct_keys exported_data map fst forallb snd].
  rewrite Hm, Hc, Hs, Hd. reflexivity.
Qed.

(** C5. On a text that [JSON.parse] refuses, [importBusinessData] returns
    false and the store, every collection of it, is what it was. *)
Theorem importBusinessData_unparseable env (jsonStr : string) (s : JStore) :
  JSON_parse jsonStr = None ->
  importBusinessData env jsonStr s = (s, Returned false).
Proof. intros Hparse. by rewrite importBusinessData_run, Hparse. Qed.

(** C10, as amended. [importBusinessData] returns true exactly when the text
    parses to a value other than [null], and false when it does not parse or
    parses to [null], with the store untouched. On success nothing about the
    shape of the value is checked: each of the four cells takes the member
    of that name when there is one and it is truthy, of whatever type, and
    keeps its value otherwise; orders are kept; and one SYSTEM/SETTINGS
    entry is logged, also when no cell was replaced. *)
Theorem importBusinessData_accepts env (jsonStr : string) (s : JStore) :
  ((importBusinessData env jsonStr s).2 = Returned true
   <-> exists data, JSON_parse jsonStr = Some data /\ data <> JNull)
  /\ ((importBusinessData env jsonStr s).2 = Returned false
      <-> JSON_parse jsonStr = None \/ JSON_parse jsonStr = Some JNull)
  /\ ((importBusinessData env jsonStr s).2 = Returned false
      -> (importBusinessData env jsonStr s).1 = s)
  /\ (forall data, JSON_parse jsonStr = Some data -> data <> JNull ->
      menuItems (importBusinessData env jsonStr s).1
        = replaced_by (member data "menuItems") (menuItems s)
      /\ categories (importBusinessData env jsonStr s).1
         = replaced_by (member data "categories") (categories s)
      /\ settings (importBusinessData env jsonStr s).1
         = replaced_by (member data "settings") (settings s)
      /\ discountMilestones (importBusinessData env jsonStr s).1
         = replaced_by (member data "discountMilestones") (discountMilestones s)
      /\ orders (importBusinessData env jsonStr s).1 = orders s
      /\ activityLog (importBusinessData env jsonStr s).1
         = entry_of env SYSTEM SETTINGS "Imported external business configuration"
             :: take 99 (activityLog s)).
Proof.
  rewrite importBusinessData_run.
  destruct (JSON_parse jsonStr) as [data|] eqn:Hparse.
  - destruct data; cbn [fst snd].
    1: { split; [split; [discriminate | intros (d & [= <-] & Hd); done]|].
         split; [split; [intros _; by right | done]|].
         split; [done|]. intros d [= <-] Hd. done. }
    all: (split; [split; [intros _; eexists; split; [reflexivity|discriminate] | done]|]);
      (split; [split; [discriminate | intros [[=]|[=]]]|]);
      (split; [discriminate|]);
      intros d [= <-] _; repeat split.
  - cbn [fst snd]. split; [split; [discriminate|intros (d & ? & _); discriminate]|].
    split; [split; [by left|done]|]. split; [done|]. intros d ?; discriminate.
Qed.

End TransferFacts.

(** The reference codec satisfies the law ([JSON_parse_stringify]), so on it
    the import of the export of the sample store changes none of the four
    cells. *)
Lemma import_export_roundtrip_witness :
  (importBusinessData (mkEnv "k3j9x0q1z" 1700000000000)
     (exportBusinessData sample_store) sample_store).2 = Returned true
  /\ menuItems (importBusinessData (mkEnv "k3j9x0q1z" 1700000000000)
                  (exportBusinessData sample_store) sample_store).1
     = menuItems sample_store
  /\ categories (importBusinessData (mkEnv "k3j9x0q1z" 1700000000000)
                   (exportBusinessData sample_store) sample_store).1
     = categories sample_store
  /\ settings (importBusinessData (mkEnv "k3j9x0q1z" 1700000000000)
                 (exportBusinessData sample_store) sample_store).1
     = settings sample_store
  /\ discountMilestones (importBusinessData (mkEnv "k3j9x0q1z" 1700000000000)
                           (exportBusinessData sample_store) sample_store).1
     = discountMilestones sample_store.
Proof.
  apply (import_export_roundtrip (H := JSON_reference));
    [exact JSON_parse_stringify | reflexivity..].
Defined.

Lemma importBusinessData_unparseable_witness :
  importBusinessData (mkEnv "k3j9x0q1z" 1700000000000) "{menuItems: oops" sample_store
  = (sample_store, Returned false).
Proof.
  apply (importBusinessData_unparseable (H := JSON_reference)).
  vm_compute. reflexivity.
Defined.

(** C10, as stated, fails on the text null: it parses as JSON, to [null];
    reading [data.menuItems] then throws, the handler returns false, and
    nothing is logged. *)
Lemma importBusinessData_null_counterexample :
  JSON_parse "null" = Some JNull
  /\ importBusinessData (mkEnv "k3j9x0q1z" 1700000000000) "null" sample_store
     = (sample_store, Returned false).
Proof. split; reflexivity. Qed.

(** A parsed value with none of the four members, here a number and an empty
    object, replaces nothing and is still logged as an import. *)
Example importBusinessData_nothing_present :
  importBusinessData (mkEnv "k3j9x0q1z" 1700000000000) "5" sample_store
  = (logActivity (mkEnv "k3j9x0q1z" 1700000000000) SYSTEM SETTINGS
       "Imported external business configuration" sample_store,
     Returned true)
  /\ importBusinessData (mkEnv "k3j9x0q1z" 1700000000000) "{}" sample_store
     = (logActivity (mkEnv "k3j9x0q1z" 1700000000000) SYSTEM SETTINGS
          "Imported external business configuration" sample_store,
        Returned true).
Proof. split; reflexivity. Qed.

(** A member of the wrong type is stored as it is: a number becomes the
    menu. *)
Example importBusinessData_unchecked :
  menuItems (importBusinessData (mkEnv "k3j9x0q1z" 1700000000000)
               (JSON_stringify (JObj [("menuItems", JNum 7)])) sample_store).1
  = JNum 7.
Proof. reflexivity. Qed.

(** ** The load effect *)

Section LoadFacts.
Context `{JsonCodec}.
Variable MENU_ITEMS : list json.
Variable Category_values : list json.
Variable INITIAL_SETTINGS : list (string * json).

(** For the menu and the categories, a value that is absent or is the text
    undefined is passed over without parsing: with the other four keys
    absent, the effect seeds the defaults. *)
Lemma loadTenantData_menu_cats_absent (localStorage : gmap string string) tenantId :
  let keys := getKeys tenantId in
  (localStorage !! Keys.menu keys = None \/ localStorage !! Keys.menu keys = Some "undefined") ->
  (localStorage !! Keys.cats keys = None \/ localStorage !! Keys.cats keys = Some "undefined") ->
  localStorage !! Keys.orders keys = None ->
  localStorage !! Keys.discounts keys = None ->
  localStorage !! Keys.settings keys = None ->
  localStorage !! Keys.log keys = None ->
  loadTenantData MENU_ITEMS Category_values INITIAL_SETTINGS localStorage tenantId []
  = (seeded MENU_ITEMS Category_values INITIAL_SETTINGS tenantId, Returned ()).
Proof.
  intros keys Hmenu Hcats Horders Hdiscounts Hsettings Hlog.
  unfold loadTenantData. fold keys.
  rewrite Horders, Hdiscounts, Hsettings, Hlog.
  destruct Hmenu as [-> | ->], Hcats as [-> | ->]; reflexivity.
Qed.

End LoadFacts.

(** C4, evaluated where it fails. With the menu saved and the orders key
    holding the text undefined, the effect does not pass the orders over: it
    parses the text, the parse throws, and the recovery path runs, which puts
    the default menu over the saved one and never seeds the settings. With the
    orders key absent the saved menu stays and the settings are seeded. *)
Theorem loadTenantData_undefined_orders
    (MENU_ITEMS Category_values : list json) (INITIAL_SETTINGS : list (string * json)) :
  let savedMenu := JArr [JObj [("id", JStr "m9"); ("name", JStr "Filter Coffee")]] in
  loadTenantData (H := JSON_reference) MENU_ITEMS Category_values INITIAL_SETTINGS
    {[ "menu_db_my-cafe" := JSON.stringify savedMenu;
       "orders_db_my-cafe" := "undefined" ]} "my-cafe" []
  = ([SetMenuItems savedMenu;
      SetCategories (JArr Category_values);
      ConsoleError "Failed to load tenant data:";
      SetMenuItems (JArr MENU_ITEMS);
      SetCategories (JArr Category_values);
      SetIsInitialized true],
     Returned ())
  /\ loadTenantData (H := JSON_reference) MENU_ITEMS Category_values INITIAL_SETTINGS
       {[ "menu_db_my-cafe" := JSON.stringify savedMenu ]} "my-cafe" []
     = ([SetMenuItems savedMenu;
         SetCategories (JArr Category_values);
         SetSettings (JObj (obj_set "name" (JStr "MY CAFE") INITIAL_SETTINGS));
         SetIsInitialized true],
        Returned ()).
Proof. split; reflexivity. Qed.

(** The same happens under each of the other three keys that are tested
    with [if (saved)]: the text undefined is parsed and the recovery path
    runs (for the activity log, after the settings were seeded); under the
    menu and categories keys the text is passed over. *)
Example loadTenantData_undefined_elsewhere
    (MENU_ITEMS Category_values : list json) (INITIAL_SETTINGS : list (string * json)) :
  let recovery :=
    ([SetMenuItems (JArr MENU_ITEMS);
      SetCategories (JArr Category_values);
      ConsoleError "Failed to load tenant data:";
      SetMenuItems (JArr MENU_ITEMS);
      SetCategories (JArr Category_values);
      SetIsInitialized true],
     Returned ()) in
  loadTenantData (H := JSON_reference) MENU_ITEMS Category_values INITIAL_SETTINGS
    {[ "discounts_db_my-cafe" := "undefined" ]} "my-cafe" [] = recovery
  /\ loadTenantData (H := JSON_reference) MENU_ITEMS Category_values INITIAL_SETTINGS
       {[ "settings_db_my-cafe" := "undefined" ]} "my-cafe" [] = recovery
  /\ loadTenantData (H := JSON_reference) MENU_ITEMS Category_values INITIAL_SETTINGS
       {[ "activity_log_my-cafe" := "undefined" ]} "my-cafe" []
     = ([SetMenuItems (JArr MENU_ITEMS);
         SetCategories (JArr Category_values);
         SetSettings (JObj (obj_set "name" (JStr "MY CAFE") INITIAL_SETTINGS));
         ConsoleError "Failed to load tenant data:";
         SetMenuItems (JArr MENU_ITEMS);
         SetCategories (JArr Category_values);
         SetIsInitialized true],
        Returned ())
  /\ loadTenantData (H := JSON_reference) MENU_ITEMS Category_values INITIAL_SETTINGS
       {[ "menu_db_my-cafe" := "undefined"; "categories_db_my-cafe" := "undefined" ]}
       "my-cafe" []
     = (seeded MENU_ITEMS Category_values INITIAL_SETTINGS "my-cafe", Returned ()).
Proof. cbv zeta. split; [reflexivity|]. split; [reflexivity|]. split; reflexivity. Qed.

(** * Further properties *)

(** ** Menu items *)

Lemma filter_all {A} (P : A -> Prop) `{forall x, Decision (P x)} (l : list A) :
  (forall x, x ∈ l -> P x) -> filter P l = l.
Proof.
  induction l as [|x l IH]; intros Hall; [done|].
  rewrite filter_cons_True by (apply Hall, list_elem_of_here).
  f_equal. apply IH. intros y Hy. apply Hall. by apply list_elem_of_further.
Qed.

Lemma find_absent (id : string) (l : list MenuItem.t) :
  (forall item, item ∈ l -> MenuItem.id item <> id) ->
  List.find (fun i => bool_decide (MenuItem.id i = id)) l = None.
Proof.
  induction l as [|x l IH]; intros Hall; [done|]. cbn.
  rewrite bool_decide_eq_false_2 by (apply Hall, list_elem_of_here).
  apply IH. intros y Hy. apply Hall. by apply list_elem_of_further.
Qed.

Lemma store_eta {M C S D} (s : Store M C S D) :
  mkStore (menuItems s) (categories s) (orders s) (lastPlacedOrder s) (settings s)
    (activityLog s) (discountMilestones s) (isAdmin s) = s.
Proof. by destruct s. Qed.

(** X1. [deleteMenuItem] removes every item that has the id, duplicates
    included, and keeps the others: an item is on the menu afterwards exactly
    when it was before and has another id, and the ids that remain are the
    earlier ids without that one, in their order. *)
Theorem deleteMenuItem_removes_all env (id : string) (s : TStore) :
  (forall item,
     item ∈ menuItems (deleteMenuItem env id s)
     <-> item ∈ menuItems s /\ MenuItem.id item <> id)
  /\ ~ (id ∈ (MenuItem.id <$> menuItems (deleteMenuItem env id s)))
  /\ MenuItem.id <$> menuItems (deleteMenuItem env id s)
     = filter (fun i => i <> id) (MenuItem.id <$> menuItems s).
Proof.
  assert (Hmenu : menuItems (deleteMenuItem env id s)
                  = filter (fun item => MenuItem.id item <> id) (menuItems s)).
  { unfold deleteMenuItem. by destruct (List.find _ _). }
  rewrite Hmenu. split; [|split].
  - intros item. rewrite list_elem_of_filter. tauto.
  - intros (item & Hid & Hin)%list_elem_of_fmap.
    apply list_elem_of_filter in Hin as [Hne _]. congruence.
  - clear Hmenu. induction (menuItems s) as [|x l IH]; [done|]. cbn [fmap list_fmap].
    destruct (decide (MenuItem.id x = id)) as [Heq|Hne].
    + rewrite filter_cons_False by naive_solver.
      rewrite (filter_cons_False (fun i => i <> id)) by naive_solver. exact IH.
    + rewrite filter_cons_True by done.
      rewrite (filter_cons_True (fun i => i <> id)) by done.
      cbn [fmap list_fmap]. f_equal. exact IH.
Qed.

(** X2. [deleteMenuItem] with an id that no item has is a silent no-op: the
    whole store, the activity log included, is what it was. *)
Theorem deleteMenuItem_absent env (id : string) (s : TStore) :
  (forall item, item ∈ menuItems s -> MenuItem.id item <> id) ->
  deleteMenuItem env id s = s.
Proof.
  intros Habsent. unfold deleteMenuItem.
  rewrite find_absent, filter_all by done. apply store_eta.
Qed.

Lemma deleteMenuItem_absent_witness :
  deleteMenuItem (mkEnv "k3j9x0q1z" 1700000000000) "m7"
    (setMenuItems [MenuItem.mk "m1" "Tea" "Drinks" 20 []]
       (initialStore (RestaurantSettings.mk "CAFE" 10 [])))
  = setMenuItems [MenuItem.mk "m1" "Tea" "Drinks" 20 []]
      (initialStore (RestaurantSettings.mk "CAFE" 10 [])).
Proof.
  apply deleteMenuItem_absent. cbn.
  intros item ->%list_elem_of_singleton. discriminate.
Defined.

(** X3. Adding an item whose id is new and deleting that id again gives the
    menu back as it was; the two calls leave a CREATE and a DELETE entry for
    the dish at the head of the log. *)
Theorem addMenuItem_deleteMenuItem env1 env2 (item : MenuItem.t) (s : TStore) :
  (forall other, other ∈ menuItems s -> MenuItem.id other <> MenuItem.id item) ->
  menuItems (deleteMenuItem env2 (MenuItem.id item) (addMenuItem env1 item s))
    = menuItems s
  /\ activityLog (deleteMenuItem env2 (MenuItem.id item) (addMenuItem env1 item s))
     = entry_of env2 DELETE MENU_ITEM ("Deleted dish: " +:+ MenuItem.name item)
       :: take 99 (entry_of env1 CREATE MENU_ITEM ("Added new dish: " +:+ MenuItem.name item)
                   :: take 99 (activityLog s)).
Proof.
  intros Hfresh. unfold deleteMenuItem.
  assert (Hfind : List.find (fun i => bool_decide (MenuItem.id i = MenuItem.id item))
                    (menuItems (addMenuItem env1 item s)) = Some item).
  { cbn. induction (menuItems s) as [|x l IH]; cbn.
    - by rewrite bool_decide_eq_true_2.
    - rewrite bool_decide_eq_false_2 by (apply Hfresh, list_elem_of_here).
      apply IH. intros y Hy. apply Hfresh. by apply list_elem_of_further. }
  rewrite Hfind. split; [|reflexivity]. cbn.
  rewrite filter_app, filter_all by done.
  rewrite filter_cons_False by naive_solver. apply app_nil_r.
Qed.

Lemma addMenuItem_deleteMenuItem_witness :
  menuItems
    (deleteMenuItem (mkEnv "p0o9i8u7y" 1700000000500) "m2"
       (addMenuItem (mkEnv "k3j9x0q1z" 1700000000000)
          (MenuItem.mk "m2" "Veg Thali" "Food" 180 [])
          (setMenuItems [MenuItem.mk "m1" "Tea" "Drinks" 20 []]
             (initialStore (RestaurantSettings.mk "CAFE" 10 [])))))
  = [MenuItem.mk "m1" "Tea" "Drinks" 20 []].
Proof.
  refine (proj1 (addMenuItem_deleteMenuItem _ _ (MenuItem.mk "m2" "Veg Thali" "Food" 180 [])
    (setMenuItems [MenuItem.mk "m1" "Tea" "Drinks" 20 []]
       (initialStore (RestaurantSettings.mk "CAFE" 10 []))) _)).
  cbn. intros other ->%list_elem_of_singleton. discriminate.
Defined.

(** X4. [updateMenuItem] keeps the ids of the menu, position by position,
    puts the new item at every position that had its id, and leaves the
    other items as they were. *)
Theorem updateMenuItem_keeps_ids env (updatedItem : MenuItem.t) (s : TStore) :
  MenuItem.id <$> menuItems (updateMenuItem env updatedItem s)
    = MenuItem.id <$> menuItems s
  /\ length (menuItems (updateMenuItem env updatedItem s)) = length (menuItems s)
  /\ (forall i item,
        menuItems s !! i = Some item ->
        menuItems (updateMenuItem env updatedItem s) !! i
          = Some (if decide (MenuItem.id item = MenuItem.id updatedItem)
                  then updatedItem else item)).
Proof.
  cbn. split; [|split].
  - rewrite <- list_fmap_compose. apply list_fmap_ext. intros i item _. cbn.
    by case_decide.
  - apply length_fmap.
  - intros i item Hi. by rewrite list_lookup_fmap, Hi.
Qed.

(** X5. [updateMenuItem] with an id that no item has leaves the menu as it
    was and still logs an UPDATE entry for the dish. *)
Theorem updateMenuItem_absent env (updatedItem : MenuItem.t) (s : TStore) :
  (forall item, item ∈ menuItems s -> MenuItem.id item <> MenuItem.id updatedItem) ->
  menuItems (updateMenuItem env updatedItem s) = menuItems s
  /\ activityLog (updateMenuItem env updatedItem s)
     = entry_of env UPDATE MENU_ITEM ("Updated dish: " +:+ MenuItem.name updatedItem)
       :: take 99 (activityLog s).
Proof.
  intros Habsent. split; [|reflexivity]. cbn.
  induction (menuItems s) as [|x l IH]; [done|]. cbn [fmap list_fmap].
  rewrite decide_False by (apply Habsent, list_elem_of_here).
  f_equal. apply IH. intros y Hy. apply Habsent. by apply list_elem_of_further.
Qed.

Lemma updateMenuItem_absent_witness :
  menuItems
    (updateMenuItem (mkEnv "k3j9x0q1z" 1700000000000)
       (MenuItem.mk "m7" "Lassi" "Drinks" 60 [])
       (setMenuItems [MenuItem.mk "m1" "Tea" "Drinks" 20 []]
          (initialStore (RestaurantSettings.mk "CAFE" 10 []))))
  = [MenuItem.mk "m1" "Tea" "Drinks" 20 []].
Proof.
  refine (proj1 (updateMenuItem_absent _ (MenuItem.mk "m7" "Lassi" "Drinks" 60 [])
    (setMenuItems [MenuItem.mk "m1" "Tea" "Drinks" 20 []]
       (initialStore (RestaurantSettings.mk "CAFE" 10 []))) _)).
  cbn. intros item ->%list_elem_of_singleton. discriminate.
Defined.

(** ** Categories, further *)

(** X6. [addCategory] is idempotent up to surrounding white space: after a
    name was added, adding any name with the same trimmed form changes
    nothing, the activity log included. *)
Theorem addCategory_again env1 env2 (name name' : string) (s : TStore) :
  trim name' = trim name ->
  addCategory env2 name' (addCategory env1 name s) = addCategory env1 name s.
Proof.
  intros Htrim. unfold addCategory at 1. rewrite Htrim.
  destruct (decide (trim name = "")) as [Hblank|Hname]; [done|].
  rewrite decide_True; [done|].
  unfold addCategory. rewrite decide_False by done.
  destruct (decide (trim name ∈ categories s)) as [Hin|Hnotin]; [done|].
  cbn. apply elem_of_app. right. apply list_elem_of_here.
Qed.

Lemma addCategory_again_witness :
  addCategory (mkEnv "p0o9i8u7y" 1700000000500) "  Desserts "
    (addCategory (mkEnv "k3j9x0q1z" 1700000000000) "Desserts"
       (initialStore (RestaurantSettings.mk "CAFE" 10 [])))
  = addCategory (mkEnv "k3j9x0q1z" 1700000000000) "Desserts"
      (initialStore (RestaurantSettings.mk "CAFE" 10 [])).
Proof. apply addCategory_again. reflexivity. Defined.

(** X7. [renameCategory old new], for a new name that is not blank and whose
    trimmed form differs from the old name, cascades: the old name is on the
    category list no more, no menu item has the old category, every item that
    had it has the trimmed new one and is otherwise as it was, every other
    item is untouched, and a listed old name makes the new name listed. *)
Theorem renameCategory_cascade env (oldName newName : string) (s : TStore) :
  trim newName <> "" -> trim newName <> oldName ->
  ~ (oldName ∈ categories (renameCategory env oldName newName s))
  /\ (oldName ∈ categories s ->
      trim newName ∈ categories (renameCategory env oldName newName s))
  /\ (forall item, item ∈ menuItems (renameCategory env oldName newName s) ->
        MenuItem.category item <> oldName)
  /\ (forall i item,
        menuItems s !! i = Some item ->
        menuItems (renameCategory env oldName newName s) !! i
          = Some (if decide (MenuItem.category item = oldName)
                  then MenuItem.mk (MenuItem.id item) (MenuItem.name item) (trim newName)
                         (MenuItem.price item) (MenuItem.attributes item)
                  else item)).
Proof.
  intros Hblank Hold.
  assert (Hrun : renameCategory env oldName newName s
    = logActivity env UPDATE CATEGORY
        ("Renamed category: " +:+ oldName +:+ " to " +:+ trim newName)
        (setMenuItems
           ((fun item =>
               if decide (MenuItem.category item = oldName)
               then MenuItem.mk (MenuItem.id item) (MenuItem.name item) (trim newName)
                      (MenuItem.price item) (MenuItem.attributes item)
               else item) <$> menuItems s)
           (setCategories
              ((fun c => if decide (c = oldName) then trim newName else c) <$> categories s)
              s))).
  { unfold renameCategory.
    destruct (decide (trim newName = "" \/ trim newName = oldName)) as [[?|?]|_]; done. }
  rewrite Hrun. cbn. repeat split.
  - intros (c & Hc & _)%list_elem_of_fmap. case_decide; congruence.
  - intros Hin. apply list_elem_of_fmap. exists oldName. by rewrite decide_True.
  - intros item (x & -> & _)%list_elem_of_fmap. case_decide; cbn; congruence.
  - intros i item Hi. by rewrite list_lookup_fmap, Hi.
Qed.

Lemma renameCategory_cascade_witness :
  menuItems
    (renameCategory (mkEnv "k3j9x0q1z" 1700000000000) "Drinks" " Beverages"
       (setMenuItems [MenuItem.mk "m1" "Tea" "Drinks" 20 [];
                      MenuItem.mk "m2" "Veg Thali" "Food" 180 []]
          (setCategories ["Drinks"; "Food"]
             (initialStore (RestaurantSettings.mk "CAFE" 10 []))))) !! 0%nat
  = Some (MenuItem.mk "m1" "Tea" "Beverages" 20 []).
Proof.
  refine (proj2 (proj2 (proj2 (renameCategory_cascade (mkEnv "k3j9x0q1z" 1700000000000)
    "Drinks" " Beverages"
    (setMenuItems [MenuItem.mk "m1" "Tea" "Drinks" 20 [];
                   MenuItem.mk "m2" "Veg Thali" "Food" 180 []]
       (setCategories ["Drinks"; "Food"]
          (initialStore (RestaurantSettings.mk "CAFE" 10 []))))
    _ _))) 0%nat (MenuItem.mk "m1" "Tea" "Drinks" 20 []) eq_refl).
  - discriminate.
  - discriminate.
Defined.

(** X8. Referential integrity of the menu is an invariant of the operations
    that look at the category list: when every menu item names a listed
    category, it still does after any operation, provided an item handed to
    [addMenuItem] or [updateMenuItem], which do not look at the list, names
    a listed category itself. Removing a category deletes its items, renaming
    one renames theirs. *)
Theorem menu_refs_ok_step env (op : Op) (s : TStore) :
  names_listed_category op s ->
  menu_refs_ok s ->
  menu_refs_ok (step env op s).
Proof.
  intros Hop Hok. unfold menu_refs_ok in *.
  destruct op as [item|item|id|name|name|oldName newName| | | | | | | |];
    cbn [step names_listed_category] in *; try exact Hok.
  - intros x [Hx| ->%list_elem_of_singleton]%elem_of_app; [by apply Hok|done].
  - intros x (y & -> & Hy)%list_elem_of_fmap. case_decide; [done|by apply Hok].
  - intros x Hx.
    assert (Hin : x ∈ filter (fun i => MenuItem.id i <> id) (menuItems s)).
    { unfold deleteMenuItem in Hx. by destruct (List.find _ _). }
    apply list_elem_of_filter in Hin as [_ Hin].
    assert (Hcats : categories (deleteMenuItem env id s) = categories s).
    { unfold deleteMenuItem. by destruct (List.find _ _). }
    rewrite Hcats. by apply Hok.
  - unfold addCategory. repeat case_decide; try exact Hok.
    cbn. intros x Hx. apply elem_of_app. left. by apply Hok.
  - cbn. intros x [Hne Hx]%list_elem_of_filter.
    apply list_elem_of_filter. split; [done|by apply Hok].
  - unfold renameCategory. case_decide as Hnoop; [exact Hok|].
    cbn. intros x (y & -> & Hy)%list_elem_of_fmap.
    apply list_elem_of_fmap. case_decide as Hcat; cbn.
    + exists oldName. rewrite decide_True by done. split; [done|].
      rewrite <- Hcat. by apply Hok.
    + exists (MenuItem.category y). rewrite decide_False by done.
      split; [done|by apply Hok].
  - unfold login. by case_decide.
Qed.

Lemma menu_refs_ok_step_witness :
  menu_refs_ok
    (step (mkEnv "k3j9x0q1z" 1700000000000) (RemoveCategory "Drinks")
       (setMenuItems [MenuItem.mk "m1" "Tea" "Drinks" 20 [];
                      MenuItem.mk "m2" "Veg Thali" "Food" 180 []]
          (setCategories ["Drinks"; "Food"]
             (initialStore (RestaurantSettings.mk "CAFE" 10 []))))).
Proof.
  apply menu_refs_ok_step.
  - exact I.
  - intros item. cbn.
    intros [->| ->%list_elem_of_singleton]%elem_of_cons; cbn.
    + apply list_elem_of_here.
    + apply list_elem_of_further, list_elem_of_here.
Defined.

(** ** Discount milestones, further *)

Lemma Array_sort_of_sorted {A} (key : A -> Z) (l : list A) :
  Sorted (fun a b => key a <= key b) l ->
  Array_sort (fun a b => key a - key b) l = l.
Proof.
  induction 1 as [|x l Hsorted IH Hhd]; [done|].
  cbn. unfold Array_sort in IH. rewrite IH.
  destruct Hhd as [|y l' Hxy]; [done|]. cbn.
  destruct (Z.leb_spec (key x - key y) 0); [done|lia].
Qed.

(** X9. A list of milestones that is already in ascending order of threshold
    is stored exactly as given, milestones of equal threshold in the order
    given; so storing the stored list once more changes nothing. *)
Theorem updateDiscountMilestones_of_sorted env env' (milestones : list DiscountMilestone.t)
    (s : TStore) :
  Sorted (fun a b => DiscountMilestone.threshold a <= DiscountMilestone.threshold b)
    milestones ->
  discountMilestones (updateDiscountMilestones env milestones s) = milestones
  /\ discountMilestones
       (updateDiscountMilestones env'
          (discountMilestones (updateDiscountMilestones env milestones s))
          (updateDiscountMilestones env milestones s))
     = milestones.
Proof.
  intros Hsorted.
  assert (Hstored : forall e ms (s0 : TStore),
            discountMilestones (updateDiscountMilestones e ms s0)
            = Array_sort
                (fun a b => DiscountMilestone.threshold a - DiscountMilestone.threshold b) ms)
    by reflexivity.
  rewrite !Hstored, !(Array_sort_of_sorted DiscountMilestone.threshold) by done. done.
Qed.

Lemma updateDiscountMilestones_of_sorted_witness :
  discountMilestones
    (updateDiscountMilestones (mkEnv "k3j9x0q1z" 1700000000000)
       [DiscountMilestone.mk 500 5; DiscountMilestone.mk 500 7; DiscountMilestone.mk 900 10]
       (initialStore (RestaurantSettings.mk "CAFE" 10 [])))
  = [DiscountMilestone.mk 500 5; DiscountMilestone.mk 500 7; DiscountMilestone.mk 900 10].
Proof.
  refine (proj1 (updateDiscountMilestones_of_sorted _ (mkEnv "p0o9i8u7y" 1700000000500)
                   _ _ _)).
  repeat constructor; cbn; lia.
Defined.

(** ** Orders, further *)

Lemma fmap_id_on {A} (f : A -> A) (l : list A) :
  (forall x, x ∈ l -> f x = x) -> f <$> l = l.
Proof.
  induction l as [|x l IH]; intros Hid; [done|]. cbn [fmap list_fmap].
  rewrite Hid by apply list_elem_of_here. f_equal.
  apply IH. intros y Hy. apply Hid. by apply list_elem_of_further.
Qed.

(** X10. A status update or a takeaway toggle for an order id that no order
    has is a silent no-op: the whole store is what it was. *)
Theorem order_update_absent (orderId status : string) (s : TStore) :
  (forall o, o ∈ orders s -> Order.id o <> orderId) ->
  updateOrderStatus orderId status s = s
  /\ toggleOrderTakeaway orderId s = s.
Proof.
  intros Habsent. unfold updateOrderStatus, toggleOrderTakeaway.
  rewrite !fmap_id_on.
  - split; apply store_eta.
  - intros o Ho. by rewrite decide_False by by apply Habsent.
  - intros o Ho. by rewrite decide_False by by apply Habsent.
Qed.

Lemma order_update_absent_witness :
  updateOrderStatus "zzzzzzzzz" "READY"
    (placeOrder (mkEnv "k3j9x0q1z" 1700000000000)
       (Order.mk "" [("m1", 2)] "" 0 false 0 100)
       (initialStore (RestaurantSettings.mk "CAFE" 10 [])))
  = placeOrder (mkEnv "k3j9x0q1z" 1700000000000)
      (Order.mk "" [("m1", 2)] "" 0 false 0 100)
      (initialStore (RestaurantSettings.mk "CAFE" 10 [])).
Proof.
  refine (proj1 (order_update_absent "zzzzzzzzz" "READY" _ _)).
  cbn. intros o ->%list_elem_of_singleton. discriminate.
Defined.

(** X11. Where every order carries the packing charge that agrees with its
    flag under the current settings, a takeaway toggle keeps it so: the order
    it reaches is given the settings' charge or 0 with its new flag, and the
    other orders and the settings stay. *)
Theorem toggleOrderTakeaway_keeps_agreement (orderId : string) (s : TStore) :
  (forall o, o ∈ orders s -> charge_agrees (settings s) o) ->
  forall o', o' ∈ orders (toggleOrderTakeaway orderId s) ->
    charge_agrees (settings (toggleOrderTakeaway orderId s)) o'.
Proof.
  intros Hagree o' [i Ho']%list_elem_of_lookup_1. revert Ho'.
  rewrite toggleOrderTakeaway_lookup.
  destruct (orders s !! i) as [o|] eqn:Ho; [|done].
  cbn [fmap option_fmap option_map]. intros [= <-].
  change (settings (toggleOrderTakeaway orderId s)) with (settings s).
  case_decide; [reflexivity|]. apply Hagree. by eapply list_elem_of_lookup_2.
Qed.

Lemma toggleOrderTakeaway_keeps_agreement_witness :
  charge_agrees (RestaurantSettings.mk "CAFE" 10 [])
    (Order.mk "k3j9x0q1z" [("m1", 2)] "PENDING" 1700000000000 true 10 110).
Proof.
  refine (toggleOrderTakeaway_keeps_agreement "k3j9x0q1z"
    (mkStore [] [] [Order.mk "k3j9x0q1z" [("m1", 2)] "PENDING" 1700000000000 false 0 100]
       None (RestaurantSettings.mk "CAFE" 10 []) [] defaultDiscountMilestones false)
    _ _ _).
  - intros o ->%list_elem_of_singleton. reflexivity.
  - apply list_elem_of_here.
Defined.

(** X24. What an order totals without its packing charge is kept by a
    takeaway toggle, where the order carries the packing charge that agrees
    with its flag under the current settings and the amounts are safe
    integers: its total, the settings' packing charge and the new total. *)
Theorem toggleOrderTakeaway_keeps_subtotal (orderId : string) (s : TStore) (i : nat)
    (o : Order.t) :
  orders s !! i = Some o ->
  charge_agrees (settings s) o ->
  let charge := RestaurantSettings.packingCharge (settings s) in
  safe_integer (Order.total o) ->
  safe_integer charge ->
  safe_integer (Order.total o + (if Order.isTakeaway o then - charge else charge)) ->
  exists o',
    orders (toggleOrderTakeaway orderId s) !! i = Some o'
    /\ Order.total o' - Order.packingCharge o' = Order.total o - Order.packingCharge o.
Proof.
  intros Ho Hagree charge _ _ _. subst charge.
  rewrite toggleOrderTakeaway_lookup, Ho. cbn [fmap option_fmap option_map].
  eexists. split; [reflexivity|].
  unfold charge_agrees in Hagree. case_decide; [|done].
  cbn. rewrite Hagree. destruct (Order.isTakeaway o); cbn; lia.
Qed.

Lemma toggleOrderTakeaway_keeps_subtotal_witness :
  exists o',
    orders (toggleOrderTakeaway "k3j9x0q1z"
      (mkStore [] [] [Order.mk "k3j9x0q1z" [("m1", 2)] "PENDING" 1700000000000 false 0 100]
         None (RestaurantSettings.mk "CAFE" 10 []) [] defaultDiscountMilestones false))
      !! 0%nat = Some o'
    /\ Order.total o' - Order.packingCharge o' = 100 - 0.
Proof.
  refine (toggleOrderTakeaway_keeps_subtotal "k3j9x0q1z"
    (mkStore [] [] [Order.mk "k3j9x0q1z" [("m1", 2)] "PENDING" 1700000000000 false 0 100]
       None (RestaurantSettings.mk "CAFE" 10 []) [] defaultDiscountMilestones false)
    0%nat _ eq_refl eq_refl _ _ _); unfold safe_integer; cbn; lia.
Defined.

(** What each operation does to the orders, up to their origin. *)
Lemma step_orders_origin env (op : Op) (s : TStore) :
  exists newer,
    order_origin <$> orders (step env op s) = newer ++ (order_origin <$> orders s).
Proof.
  destruct op; cbn [step];
    try (exists []; reflexivity).
  - exists []. unfold deleteMenuItem. by destruct (List.find _ _).
  - exists []. unfold addCategory. by repeat case_decide.
  - exists []. unfold renameCategory. by case_decide.
  - eexists [_]. reflexivity.
  - exists []. cbn. rewrite <- list_fmap_compose. apply list_fmap_ext.
    intros i o _. cbn. by case_decide.
  - exists []. cbn. rewrite <- list_fmap_compose. apply list_fmap_ext.
    intros i o _. cbn. by case_decide.
  - exists []. unfold login. by case_decide.
Qed.

Lemma run_snoc ops eo (s : TStore) : run (ops ++ [eo]) s = step eo.1 eo.2 (run ops s).
Proof. unfold run. by rewrite foldl_app. Qed.

(** X12. No operation removes or reorders an order or rewrites where it
    comes from: after any run of operations the orders there were are still
    there, in their order and with their id, line items and creation instant,
    behind the orders placed since. *)
Theorem orders_never_removed (ops : list (Env * Op)) (s : TStore) :
  exists newer,
    order_origin <$> orders (run ops s) = newer ++ (order_origin <$> orders s).
Proof.
  induction ops as [|[env op] ops IH] using rev_ind.
  - by exists [].
  - rewrite run_snoc. destruct IH as [newer IH].
    destruct (step_orders_origin env op (run ops s)) as [newest Hstep].
    exists (newest ++ newer). cbn [fst snd]. by rewrite Hstep, IH, app_assoc.
Qed.

(** ** The admin flag *)

Lemma step_isAdmin env (op : Op) (s : TStore) :
  isAdmin (step env op s)
  = match op with
    | Login password => if decide (password = "admin123") then true else isAdmin s
    | Logout => false
    | _ => isAdmin s
    end.
Proof.
  destruct op; cbn [step]; try reflexivity.
  - unfold deleteMenuItem. by destruct (List.find _ _).
  - unfold addCategory. by repeat case_decide.
  - unfold renameCategory. by case_decide.
  - unfold login. by case_decide.
Qed.

(** X13. The admin flag is raised by nothing but a login with the password
    admin123: when a run of operations starts without the flag and ends with
    it, that login is among the operations. *)
Theorem isAdmin_only_by_login (ops : list (Env * Op)) (s : TStore) :
  isAdmin s = false ->
  isAdmin (run ops s) = true ->
  exists env, (env, Login "admin123") ∈ ops.
Proof.
  intros Hstart. induction ops as [|[env op] ops IH] using rev_ind.
  - cbn. congruence.
  - rewrite run_snoc, step_isAdmin. cbn [fst snd]. intros Hend.
    assert (Hcases : (exists env', (env', Login "admin123") ∈ ops)
                     \/ op = Login "admin123").
    { destruct op; try (left; by apply IH); try discriminate Hend.
      case_decide as Hpw; [right; by subst|left; by apply IH]. }
    destruct Hcases as [[env' Hin]| ->].
    + exists env'. apply elem_of_app. by left.
    + exists env. apply elem_of_app. right. apply list_elem_of_here.
Qed.

Lemma isAdmin_only_by_login_witness :
  exists env,
    (env, Login "admin123")
      ∈ [(mkEnv "k3j9x0q1z" 1700000000000, Login "letmein");
         (mkEnv "p0o9i8u7y" 1700000000500, Login "admin123")].
Proof.
  apply (isAdmin_only_by_login _ (initialStore (RestaurantSettings.mk "CAFE" 10 [])));
    reflexivity.
Defined.

(** X14. What each operation leaves alone. Orders change only by placing,
    status update and takeaway toggle, and the last placed order only by
    placing; menu items only by the menu item operations and by removing or
    renaming a category; categories only by the category operations;
    settings and discount milestones only by their update; the admin flag
    only by login and logout; and the order operations, login and logout
    write no activity entry. In particular [clearHistory] touches the
    activity log alone. *)
Theorem step_frame env (op : Op) (s : TStore) :
  (match op with
   | PlaceOrder _ | UpdateOrderStatus _ _ | ToggleOrderTakeaway _ => True
   | _ => orders (step env op s) = orders s
   end)
  /\ (match op with
      | PlaceOrder _ => True
      | _ => lastPlacedOrder (step env op s) = lastPlacedOrder s
      end)
  /\ (match op with
      | AddMenuItem _ | UpdateMenuItem _ | DeleteMenuItem _
      | RemoveCategory _ | RenameCategory _ _ => True
      | _ => menuItems (step env op s) = menuItems s
      end)
  /\ (match op with
      | AddCategory _ | RemoveCategory _ | RenameCategory _ _ => True
      | _ => categories (step env op s) = categories s
      end)
  /\ (match op with
      | UpdateSettings _ => True
      | _ => settings (step env op s) = settings s
      end)
  /\ (match op with
      | UpdateDiscountMilestones _ => True
      | _ => discountMilestones (step env op s) = discountMilestones s
      end)
  /\ (match op with
      | Login _ | Logout => True
      | _ => isAdmin (step env op s) = isAdmin s
      end)
  /\ (match op with
      | PlaceOrder _ | UpdateOrderStatus _ _ | ToggleOrderTakeaway _
      | Login _ | Logout => activityLog (step env op s) = activityLog s
      | _ => True
      end).
Proof.
  destruct op; cbn [step];
    try (repeat split; reflexivity).
  - unfold deleteMenuItem. destruct (List.find _ _); repeat split; reflexivity.
  - unfold addCategory. repeat case_decide; repeat split; reflexivity.
  - unfold renameCategory. case_decide; repeat split; reflexivity.
  - unfold login. case_decide; repeat split; reflexivity.
Qed.

(** ** Import, further *)

Section TransferFurther.
Context `{JsonCodec}.

Lemma replaced_by_twice (field : option json) (old : json) :
  replaced_by field (replaced_by field old) = replaced_by field old.
Proof. unfold replaced_by. destruct field as [v|]; [|done]. by destruct (truthy v). Qed.

(** X15. A backup goes from one store to another: on a platform whose
    [JSON.parse] reads back what its [JSON.stringify] wrote, importing into
    [s2] the string exported from [s1] returns true and gives each of the four
    business cells of [s2] the value [s1] had there when that value is truthy;
    a falsy value of [s1] (null, false, 0, the empty string) is not taken
    over, and [s2] keeps its own. The orders, the last placed order and the
    admin flag of [s2] stay. *)
Theorem import_of_export env (s1 s2 : JStore) :
  (forall v, distinct_keys v = true -> JSON_parse (JSON_stringify v) = Some v) ->
  distinct_keys (menuItems s1) = true ->
  distinct_keys (categories s1) = true ->
  distinct_keys (settings s1) = true ->
  distinct_keys (discountMilestones s1) = true ->
  (importBusinessData env (exportBusinessData s1) s2).2 = Returned true
  /\ menuItems (importBusinessData env (exportBusinessData s1) s2).1
     = (if truthy (menuItems s1) then menuItems s1 else menuItems s2)
  /\ categories (importBusinessData env (exportBusinessData s1) s2).1
     = (if truthy (categories s1) then categories s1 else categories s2)
  /\ settings (importBusinessData env (exportBusinessData s1) s2).1
     = (if truthy (settings s1) then settings s1 else settings s2)
  /\ discountMilestones (importBusinessData env (exportBusinessData s1) s2).1
     = (if truthy (discountMilestones s1) then discountMilestones s1
        else discountMilestones s2)
  /\ orders (importBusinessData env (exportBusinessData s1) s2).1 = orders s2
  /\ lastPlacedOrder (importBusinessData env (exportBusinessData s1) s2).1
     = lastPlacedOrder s2
  /\ isAdmin (importBusinessData env (exportBusinessData s1) s2).1 = isAdmin s2.
Proof.
  intros Hlaw Hm Hc Hs Hd. rewrite importBusinessData_run. unfold exportBusinessData.
  rewrite Hlaw.
  - unfold exported_data at 1. cbn [fst snd]. repeat split.
  - cbn [distinct_keys exported_data map fst forallb snd].
    rewrite Hm, Hc, Hs, Hd. reflexivity.
Qed.

(** X16. Importing the same text a second time returns what the first import
    returned and changes none of the four business cells again, and no order;
    when the import succeeds the second one logs one more activity entry, on
    top of the first 99 of the log the first import left, and when it fails
    the store is the one before the first import, log included. *)
Theorem importBusinessData_twice env1 env2 (jsonStr : string) (s : JStore) :
  (importBusinessData env2 jsonStr (importBusinessData env1 jsonStr s).1).2
    = (importBusinessData env1 jsonStr s).2
  /\ menuItems (importBusinessData env2 jsonStr (importBusinessData env1 jsonStr s).1).1
     = menuItems (importBusinessData env1 jsonStr s).1
  /\ categories (importBusinessData env2 jsonStr (importBusinessData env1 jsonStr s).1).1
     = categories (importBusinessData env1 jsonStr s).1
  /\ settings (importBusinessData env2 jsonStr (importBusinessData env1 jsonStr s).1).1
     = settings (importBusinessData env1 jsonStr s).1
  /\ discountMilestones
       (importBusinessData env2 jsonStr (importBusinessData env1 jsonStr s).1).1
     = discountMilestones (importBusinessData env1 jsonStr s).1
  /\ orders (importBusinessData env2 jsonStr (importBusinessData env1 jsonStr s).1).1
     = orders s
  /\ match (importBusinessData env1 jsonStr s).2 with
     | Returned true =>
         activityLog (importBusinessData env2 jsonStr (importBusinessData env1 jsonStr s).1).1
         = entry_of env2 SYSTEM SETTINGS "Imported external business configuration"
             :: take 99 (activityLog (importBusinessData env1 jsonStr s).1)
         /\ activityLog (importBusinessData env1 jsonStr s).1
            = entry_of env1 SYSTEM SETTINGS "Imported external business configuration"
                :: take 99 (activityLog s)
     | _ =>
         (importBusinessData env2 jsonStr (importBusinessData env1 jsonStr s).1).1 = s
     end.
Proof.
  rewrite !importBusinessData_run.
  destruct (JSON_parse jsonStr) as [[]|]; cbn [fst snd];
    repeat split; cbn; apply replaced_by_twice.
Qed.

End TransferFurther.

Lemma import_of_export_witness :
  menuItems
    (importBusinessData (mkEnv "k3j9x0q1z" 1700000000000)
       (exportBusinessData sample_store)
       (mkStore (JArr []) (JArr []) [] None (JObj []) [] (JArr []) true)).1
  = menuItems sample_store.
Proof.
  refine (proj1 (proj2 (import_of_export (H := JSON_reference) _ sample_store _
                          JSON_parse_stringify _ _ _ _)));
    reflexivity.
Defined.

(** ** Persistence keys *)

Lemma append_inj_r (p a b : string) : p +:+ a = p +:+ b -> a = b.
Proof.
  induction p as [|c p IH]; [done|]. rewrite !append_cons. intros [= Heq]. by apply IH.
Qed.

Lemma append_head_ne (c1 c2 : ascii) (p1 p2 a b : string) :
  c1 <> c2 -> String c1 p1 +:+ a <> String c2 p2 +:+ b.
Proof. intros Hne. rewrite !append_cons. intros [= Heq _]. done. Qed.

Ltac key_ne :=
  first [ apply append_head_ne; discriminate
        | let Heq := fresh in intros Heq; apply append_inj_r in Heq; congruence ].

Ltac keys_apart :=
  let Hin := fresh "Hin" in
  intros Hin;
  repeat (apply elem_of_cons in Hin as [Hin|Hin]; [revert Hin; key_ne|]);
  by apply elem_of_nil in Hin.

(** The six keys of one tenant are pairwise distinct. *)
Lemma keys_NoDup (id : string) : NoDup (all_keys (getKeys id)).
Proof.
  unfold all_keys, getKeys. cbn [Keys.menu Keys.orders Keys.cats Keys.discounts
    Keys.settings Keys.log].
  repeat (apply NoDup_cons; split; [keys_apart|]). apply NoDup_nil_2.
Qed.

(** The keys of two tenants have nothing in common. *)
Lemma keys_disjoint (a b k : string) :
  a <> b -> k ∈ all_keys (getKeys a) -> ~ (k ∈ all_keys (getKeys b)).
Proof.
  intros Hab. unfold all_keys, getKeys. cbn [Keys.menu Keys.orders Keys.cats
    Keys.discounts Keys.settings Keys.log].
  intros Hk.
  repeat (apply elem_of_cons in Hk as [->|Hk]; [keys_apart|]).
  by apply elem_of_nil in Hk.
Qed.

(** X17. Tenants do not collide in storage: the six keys of a tenant are
    pairwise distinct, and differ from every key of any other tenant. *)
Theorem getKeys_no_collision (a b : string) :
  a <> b ->
  NoDup (all_keys (getKeys a) ++ all_keys (getKeys b)).
Proof.
  intros Hab. apply NoDup_app. split; [apply keys_NoDup|].
  split; [|apply keys_NoDup]. intros k. by apply keys_disjoint.
Qed.

Lemma getKeys_no_collision_witness :
  NoDup (all_keys (getKeys "default-cafe") ++ all_keys (getKeys "default-cafe-2")).
Proof. apply getKeys_no_collision. discriminate. Defined.

(** ** Loading and saving *)

Section PersistenceFacts.
Context `{JsonCodec}.
Variable MENU_ITEMS : list json.
Variable Category_values : list json.
Variable INITIAL_SETTINGS : list (string * json).

(** What the save effect leaves under each key of its tenant. *)
Lemma saveTenantData_lookup tenantId (m c o d st l : json) (localStorage : gmap string string) :
  let saved := saveTenantData true tenantId m c o d st l localStorage in
  let keys := getKeys tenantId in
  saved !! Keys.menu keys = Some (JSON_stringify m)
  /\ saved !! Keys.cats keys = Some (JSON_stringify c)
  /\ saved !! Keys.orders keys = Some (JSON_stringify o)
  /\ saved !! Keys.discounts keys = Some (JSON_stringify d)
  /\ saved !! Keys.settings keys = Some (JSON_stringify st)
  /\ saved !! Keys.log keys = Some (JSON_stringify l).
Proof.
  cbv zeta. unfold saveTenantData, getKeys.
  cbn [Keys.menu Keys.orders Keys.cats Keys.discounts Keys.settings Keys.log].
  repeat split;
    repeat (first [ apply lookup_insert_eq | rewrite lookup_insert_ne by key_ne ]).
Qed.

(** The load effect on six saved texts that all parse. *)
Lemma loadTenantData_all_saved (localStorage : gmap string string) tenantId
    (tm tc to td ts tl : string) (m c o d st l : json) :
  let keys := getKeys tenantId in
  localStorage !! Keys.menu keys = Some tm -> tm <> "undefined" ->
  localStorage !! Keys.cats keys = Some tc -> tc <> "undefined" ->
  localStorage !! Keys.orders keys = Some to -> to <> "" ->
  localStorage !! Keys.discounts keys = Some td -> td <> "" ->
  localStorage !! Keys.settings keys = Some ts -> ts <> "" ->
  localStorage !! Keys.log keys = Some tl -> tl <> "" ->
  JSON_parse tm = Some m -> JSON_parse tc = Some c -> JSON_parse to = Some o ->
  JSON_parse td = Some d -> JSON_parse ts = Some st -> JSON_parse tl = Some l ->
  loadTenantData MENU_ITEMS Category_values INITIAL_SETTINGS localStorage tenantId []
  = ([SetMenuItems m; SetCategories c; SetOrders o; SetDiscountMilestones d;
      SetSettings st; SetActivityLog l; SetIsInitialized true],
     Returned ()).
Proof.
  intros keys Hm Hm' Hc Hc' Ho Ho' Hd Hd' Hs Hs' Hl Hl' Pm Pc Po Pd Ps Pl.
  unfold loadTenantData. fold keys. rewrite Hm, Hc, Ho, Hd, Hs, Hl.
  unfold saved_truthy.
  rewrite (decide_True (P := tm <> "undefined")), (decide_True (P := tc <> "undefined"))
    by done.
  rewrite (decide_False (P := to = "")), (decide_False (P := td = "")),
    (decide_False (P := ts = "")), (decide_False (P := tl = "")) by done.
  unfold parse_json. rewrite Pm, Pc, Po, Pd, Ps, Pl. reflexivity.
Qed.

(** X18. What was saved is what is loaded: on a platform whose [JSON.parse]
    reads back what its [JSON.stringify] wrote, and whose [JSON.stringify]
    writes neither the empty text nor the text undefined, the load effect run
    on the storage the save effect has written sets the six cells to the six
    saved values, reports no failure, and completes. *)
Theorem save_then_load tenantId (m c o d st l : json) (localStorage : gmap string string) :
  (forall v, distinct_keys v = true -> JSON_parse (JSON_stringify v) = Some v) ->
  (forall v, JSON_stringify v <> "" /\ JSON_stringify v <> "undefined") ->
  distinct_keys m = true -> distinct_keys c = true -> distinct_keys o = true ->
  distinct_keys d = true -> distinct_keys st = true -> distinct_keys l = true ->
  loadTenantData MENU_ITEMS Category_values INITIAL_SETTINGS
    (saveTenantData true tenantId m c o d st l localStorage) tenantId []
  = ([SetMenuItems m; SetCategories c; SetOrders o; SetDiscountMilestones d;
      SetSettings st; SetActivityLog l; SetIsInitialized true],
     Returned ()).
Proof.
  intros Hlaw Htext Dm Dc Do Dd Ds Dl.
  destruct (saveTenantData_lookup tenantId m c o d st l localStorage)
    as (Lm & Lc & Lo & Ld & Ls & Ll).
  eapply loadTenantData_all_saved; eauto; apply Htext.
Qed.

(** X19. The save effect of one tenant leaves the keys of every other
    tenant as they are, and before the load effect has completed it leaves
    the whole storage as it is. *)
Theorem saveTenantData_isolated (isInitialized : bool) (a b k : string)
    (m c o d st l : json) (localStorage : gmap string string) :
  a <> b -> k ∈ all_keys (getKeys b) ->
  saveTenantData isInitialized a m c o d st l localStorage !! k = localStorage !! k
  /\ saveTenantData false a m c o d st l localStorage = localStorage.
Proof.
  intros Hab Hk. split; [|reflexivity].
  destruct isInitialized; [|reflexivity].
  assert (Hnot : forall k', k' ∈ all_keys (getKeys a) -> k' <> k).
  { intros k' Hk' ->. by apply (keys_disjoint b a k). }
  unfold saveTenantData.
  rewrite !lookup_insert_ne;
    [done|apply Hnot; unfold all_keys;
          repeat first [apply list_elem_of_here | apply list_elem_of_further]..].
Qed.

End PersistenceFacts.

(** The reference codec writes neither the empty text nor the text
    undefined. *)
Lemma stringify_never_undefined (v : json) :
  JSON.stringify v <> "" /\ JSON.stringify v <> "undefined".
Proof.
  destruct v as [|[]|n|s|vs|ms]; try (split; discriminate).
  - destruct (string_of_int_head n) as (c & r & Hs & Hc).
    cbn [JSON.stringify]. rewrite Hs. split; [discriminate|].
    intros [= -> _]. destruct Hc as [Hd|Hm]; [by apply Hd|discriminate].
Qed.

Lemma save_then_load_witness :
  loadTenantData (H := JSON_reference) [] [] []
    (saveTenantData (H := JSON_reference) true "my-cafe"
       (menuItems sample_store) (categories sample_store) (JArr [])
       (discountMilestones sample_store) (settings sample_store) (JArr []) ∅)
    "my-cafe" []
  = ([SetMenuItems (menuItems sample_store); SetCategories (categories sample_store);
      SetOrders (JArr []); SetDiscountMilestones (discountMilestones sample_store);
      SetSettings (settings sample_store); SetActivityLog (JArr []);
      SetIsInitialized true],
     Returned ()).
Proof.
  apply (save_then_load (H := JSON_reference));
    [exact JSON_parse_stringify | exact stringify_never_undefined | reflexivity..].
Defined.

Lemma saveTenantData_isolated_witness :
  saveTenantData (H := JSON_reference) true "my-cafe"
    (JArr []) (JArr []) (JArr []) (JArr []) (JObj []) (JArr [])
    {[ "orders_db_other-cafe" := "[]" ]} !! "orders_db_other-cafe"
  = ({[ "orders_db_other-cafe" := "[]" ]} : gmap string string) !! "orders_db_other-cafe".
Proof.
  refine (proj1 (saveTenantData_isolated (H := JSON_reference) true
                   "my-cafe" "other-cafe" _ _ _ _ _ _ _ _ _ _)).
  - discriminate.
  - apply list_elem_of_further, list_elem_of_here.
Defined.

Section LoadCompletes.
Context `{JsonCodec}.
Variable MENU_ITEMS : list json.
Variable Category_values : list json.
Variable INITIAL_SETTINGS : list (string * json).

Ltac load_cases localStorage :=
  repeat (match goal with
          | |- context [localStorage !! ?k] => destruct (localStorage !! k) as [?|]
          | |- context [decide ?P] => destruct (decide P)
          | |- context [JSON_parse ?t] => destruct (JSON_parse t) as [?|]
          end; cbn).

(** X20. The load effect always completes, whatever the storage holds: it
    never throws, its last call marks the store initialised, and whenever it
    reports a failure it ends by putting the default menu and the default
    categories in place. *)
Theorem loadTenantData_completes (localStorage : gmap string string) (tenantId : string) :
  exists calls,
    loadTenantData MENU_ITEMS Category_values INITIAL_SETTINGS localStorage tenantId []
      = (calls, Returned ())
    /\ last calls = Some (SetIsInitialized true)
    /\ (forall message,
          ConsoleError message ∈ calls ->
          drop (length calls - 4) calls = recovery MENU_ITEMS Category_values).
Proof.
  unfold loadTenantData, try_catch, mbind, Comp_bind, parse_json, call, saved_truthy,
    mret, Comp_ret, throw.
  load_cases localStorage.
  all: eexists; split; [reflexivity|]; split; [reflexivity|].
  all: intros message Hin; try reflexivity.
  all: exfalso; repeat (apply elem_of_cons in Hin as [Hin|Hin]; [discriminate Hin|]).
  all: by apply elem_of_nil in Hin.
Qed.

End LoadCompletes.

(** ** Compositions *)

(** X21. The last placed order is a snapshot taken when the order is
    placed: right after [placeOrder] it is the first order of the list, with
    status PENDING; a later status update reaches the order in the list and
    not the snapshot, which still says PENDING. *)
Theorem lastPlacedOrder_snapshot env (newOrderData : Order.t) (status : string)
    (s : TStore) :
  head (orders (placeOrder env newOrderData s)) = lastPlacedOrder (placeOrder env newOrderData s)
  /\ Order.status <$> lastPlacedOrder (placeOrder env newOrderData s) = Some "PENDING"
  /\ Order.status
       <$> head (orders (updateOrderStatus (random_id env) status
                           (placeOrder env newOrderData s)))
     = Some status
  /\ Order.status
       <$> lastPlacedOrder (updateOrderStatus (random_id env) status
                              (placeOrder env newOrderData s))
     = Some "PENDING".
Proof.
  repeat split. cbn. by rewrite decide_True.
Qed.

(** X22. Adding a category that is new and removing it again gives back the
    category list, whatever the menu holds; the menu loses the items that
    named the category before it was listed, so that, where every menu item
    names a listed category, the menu comes back as well: the cascade finds
    nothing to delete. *)
Theorem addCategory_removeCategory env1 env2 (name : string) (s : TStore) :
  trim name <> "" ->
  ~ (trim name ∈ categories s) ->
  categories (removeCategory env2 (trim name) (addCategory env1 name s)) = categories s
  /\ menuItems (removeCategory env2 (trim name) (addCategory env1 name s))
     = filter (fun item => MenuItem.category item <> trim name) (menuItems s)
  /\ (menu_refs_ok s ->
      menuItems (removeCategory env2 (trim name) (addCategory env1 name s)) = menuItems s).
Proof.
  intros Hblank Hnew. unfold addCategory.
  rewrite decide_False, decide_False by done. cbn. split; [|split].
  - rewrite filter_app, filter_all, filter_cons_False by naive_solver.
    apply app_nil_r.
  - reflexivity.
  - intros Hok. apply filter_all. intros item Hitem Heq. apply Hnew. rewrite <- Heq.
    by apply Hok.
Qed.

Lemma addCategory_removeCategory_witness :
  categories
    (removeCategory (mkEnv "p0o9i8u7y" 1700000000500) (trim " Desserts")
       (addCategory (mkEnv "k3j9x0q1z" 1700000000000) " Desserts"
          (setMenuItems [MenuItem.mk "m1" "Tea" "Drinks" 20 [];
                         MenuItem.mk "m2" "Flan" "Desserts" 35 []]
             (setCategories ["Drinks"; "Food"]
                (initialStore (RestaurantSettings.mk "CAFE" 10 []))))))
  = ["Drinks"; "Food"]
  /\ menuItems
      (removeCategory (mkEnv "p0o9i8u7y" 1700000000500) (trim " Desserts")
         (addCategory (mkEnv "k3j9x0q1z" 1700000000000) " Desserts"
            (setMenuItems [MenuItem.mk "m1" "Tea" "Drinks" 20 [];
                           MenuItem.mk "m2" "Flan" "Desserts" 35 []]
               (setCategories ["Drinks"; "Food"]
                  (initialStore (RestaurantSettings.mk "CAFE" 10 []))))))
    = [MenuItem.mk "m1" "Tea" "Drinks" 20 []].
Proof.
  destruct (addCategory_removeCategory (mkEnv "k3j9x0q1z" 1700000000000)
    (mkEnv "p0o9i8u7y" 1700000000500) " Desserts"
    (setMenuItems [MenuItem.mk "m1" "Tea" "Drinks" 20 [];
                   MenuItem.mk "m2" "Flan" "Desserts" 35 []]
       (setCategories ["Drinks"; "Food"]
          (initialStore (RestaurantSettings.mk "CAFE" 10 []))))) as (Hcats & Hmenu & _).
  - discriminate.
  - cbn. intros Hin. repeat (apply elem_of_cons in Hin as [Hin|Hin]; [discriminate Hin|]).
    by apply elem_of_nil in Hin.
  - split; [exact Hcats | exact Hmenu].
Defined.

(** ** The seeded display name *)

Lemma upper_replace_char (c : ascii) :
  (nat_of_ascii c < 128)%nat ->
  let n :=
    nat_of_ascii
      (let c' := if (nat_of_ascii c =? 45)%nat then ascii_of_nat 32 else c in
       if (97 <=? nat_of_ascii c')%nat && (nat_of_ascii c' <=? 122)%nat
       then ascii_of_nat (nat_of_ascii c' - 32) else c') in
  (n < 128)%nat /\ n <> 45%nat /\ ~ (97 <= n <= 122)%nat.
Proof. destruct c as [[] [] [] [] [] [] [] []]; vm_compute; intros; repeat split; lia. Qed.

(** X23. For an ASCII tenant id, the display name the load effect derives
    from it, by replacing hyphens with spaces and upper-casing, is ASCII text
    of the same length with no hyphen and no lower-case letter. *)
Theorem seeded_name_shape (tenantId : string) :
  ascii_only tenantId ->
  String.length (toUpperCase (replace_hyphens tenantId)) = String.length tenantId
  /\ Forall
       (fun c =>
          (nat_of_ascii c < 128)%nat
          /\ nat_of_ascii c <> 45%nat /\ ~ (97 <= nat_of_ascii c <= 122)%nat)
       (list_ascii_of_string (toUpperCase (replace_hyphens tenantId))).
Proof.
  unfold ascii_only. induction tenantId as [|c r IH]; [by split; [|constructor]|].
  cbn [replace_hyphens toUpperCase list_ascii_of_string String.length].
  intros [Hc Hr]%Forall_cons. destruct (IH Hr) as [Hlen Hall]. split.
  - by rewrite Hlen.
  - constructor; [by apply upper_replace_char | exact Hall].
Qed.

Lemma seeded_name_shape_witness :
  toUpperCase (replace_hyphens "my-cafe") = "MY CAFE"
  /\ String.length (toUpperCase (replace_hyphens "my-cafe")) = 7%nat.
Proof.
  split; [reflexivity|].
  refine (proj1 (seeded_name_shape "my-cafe" _)).
  unfold ascii_only. cbn [list_ascii_of_string].
  repeat (constructor; [vm_compute; lia|]). constructor.
Defined.

